(** * IsroDataFilterComponent: area-of-interest filter and WFS query

    A shallow embedding of [src/IsroDataFilterComponent.tsx]: the component
    state, its event handlers, the bounding-box computation over drawn
    points, the WFS request builder and the promise chain that hands the
    response to the workbench. *)

From Stdlib Require Import ZArith List Bool Ascii String Lia Permutation QArith Qabs.
Import ListNotations.

Local Open Scope string_scope.
Local Open Scope Z_scope.

(** ** JavaScript numbers

    The component only compares numbers ([Math.max], [Math.min]) and prints
    them ([toFixed]); both are exact on the value of a double.  Every finite
    double is an integer multiple of 2^-1074 (the smallest subnormal), so a
    finite number is kept as that integer multiple: the representation is
    canonical and the order on doubles is the order on [Z].  The sign of a
    zero is not kept: [Math.max] and [Math.min] followed by [toFixed] do not
    observe it ([(-0).toFixed(6)] is ["0.000000"]). *)

Inductive number : Type :=
| NaN
| Infinity (negative : bool)
| Finite (units : Z).

Definition unit_exponent : Z := 1074.

Definition ofInteger (z : Z) : number := Finite (z * 2 ^ unit_exponent).

(** The double with integer significand [m] and binary exponent [e],
    [m * 2^e], with [-1074 <= e]. *)
Definition ofBinary (m e : Z) : number := Finite (m * 2 ^ (e + unit_exponent)).

(** The value of a finite number as a rational. *)
Definition valueQ (u : Z) : Q := Qmake u (2 ^ 1074)%positive.

(** [x < y] on numbers; false as soon as one side is [NaN]. *)
Definition num_ltb (x y : number) : bool :=
  match x, y with
  | NaN, _ | _, NaN => false
  | Infinity true, Infinity true => false
  | Infinity true, _ => true
  | _, Infinity true => false
  | Infinity false, _ => false
  | Finite _, Infinity false => true
  | Finite a, Finite b => a <? b
  end.

(** [x <= y] on numbers; false as soon as one side is [NaN]. *)
Definition num_leb (x y : number) : bool :=
  match x, y with
  | NaN, _ | _, NaN => false
  | Infinity true, _ => true
  | _, Infinity false => true
  | Infinity false, _ => false
  | Finite _, Infinity true => false
  | Finite a, Finite b => a <=? b
  end.

Definition isNaN (x : number) : bool :=
  match x with NaN => true | _ => false end.

Module Math.

(** [Math.max(...values)]: starts from -Infinity, returns [NaN] at the first
    [NaN] argument, and otherwise keeps the first greatest argument. *)
Fixpoint max_from (highest : number) (values : list number) : number :=
  match values with
  | [] => highest
  | NaN :: _ => NaN
  | v :: rest => max_from (if num_ltb highest v then v else highest) rest
  end.

Definition max (values : list number) : number :=
  max_from (Infinity true) values.

(** [Math.min(...values)]: starts from +Infinity. *)
Fixpoint min_from (lowest : number) (values : list number) : number :=
  match values with
  | [] => lowest
  | NaN :: _ => NaN
  | v :: rest => min_from (if num_ltb v lowest then v else lowest) rest
  end.

Definition min (values : list number) : number :=
  min_from (Infinity false) values.

End Math.

(** ** Decimal digits *)

Definition digitChar (d : Z) : ascii := ascii_of_nat (48 + Z.to_nat d).

Fixpoint digitsFuel (fuel : nat) (n : Z) (acc : string) : string :=
  match fuel with
  | O => acc
  | S fuel' =>
      let acc' := String (digitChar (n mod 10)) acc in
      if n / 10 =? 0 then acc' else digitsFuel fuel' (n / 10) acc'
  end.

(** The decimal representation of [n >= 0], without leading zeroes
    (["0"] for zero). *)
Definition decimalDigits (n : Z) : string :=
  digitsFuel (S (Z.to_nat (Z.log2 n))) n "".

Fixpoint zeros (k : nat) : string :=
  match k with
  | O => ""
  | S k' => String "0" (zeros k')
  end.

Fixpoint stripTrailingZeros (s : string) : string :=
  match s with
  | "" => ""
  | String c rest =>
      match stripTrailingZeros rest with
      | "" => if Ascii.eqb c "0" then "" else String c ""
      | rest' => String c rest'
      end
  end.

(** ** Number::toString for integers from 10^21 on

    [Number.prototype.toFixed] falls back on [ToString] for magnitudes from
    10^21 on.  [x] is the (integer) value of such a double: the result is the
    shortest digit string [s] with [s * 10^(n-k)] rounding to [x], the
    closest one when several have that length, in exponent notation. *)

Section LargeToString.
Variable x : Z.

Let binade : Z := Z.log2 x.
Let ulp : Z := 2 ^ (binade - 52).
Let above : Z := ulp / 2.
Let below : Z := if x =? 2 ^ binade then ulp / 4 else ulp / 2.
Let inclusive : bool := Z.even (x / ulp).

Definition roundsTo (c : Z) : bool :=
  if inclusive then (x - below <=? c) && (c <=? x + above)
  else (x - below <? c) && (c <? x + above).

Definition digitCount : Z := Z.of_nat (String.length (decimalDigits x)).

(** The best significand of [k] digits, if one rounds to [x]. *)
Definition shortestWith (k : Z) : option Z :=
  let p := 10 ^ (digitCount - k) in
  let s1 := x / p in
  let s2 := s1 + 1 in
  let in1 := roundsTo (s1 * p) in
  let in2 := roundsTo (s2 * p) in
  match in1, in2 with
  | true, true =>
      let d1 := x - s1 * p in
      let d2 := s2 * p - x in
      if d1 <? d2 then Some s1
      else if d2 <? d1 then Some s2
      else Some (if Z.even s1 then s1 else s2)
  | true, false => Some s1
  | false, true => Some s2
  | false, false => None
  end.

Fixpoint shortestFrom (fuel : nat) (k : Z) : Z * Z :=
  match fuel with
  | O => (x, digitCount)
  | S fuel' =>
      match shortestWith k with
      | Some s => (s, k)
      | None => shortestFrom fuel' (k + 1)
      end
  end.

Definition Number_toString_large : string :=
  let (s, k) := shortestFrom 17 1 in
  let e := if s =? 10 ^ k then digitCount else digitCount - 1 in
  let digits := stripTrailingZeros (decimalDigits s) in
  match digits with
  | "" => "0"
  | String d "" => String d "" ++ "e+" ++ decimalDigits e
  | String d rest => String d "" ++ "." ++ rest ++ "e+" ++ decimalDigits e
  end.
End LargeToString.

(** ** Number.prototype.toFixed(6) *)

Definition fractionDigits : nat := 6.

(** The integer [n] for which [n / 10^6 - x] is as close to zero as possible,
    the larger one when there are two; [a] is [x >= 0] in units of 2^-1074. *)
Definition scaledNearest (a : Z) : Z :=
  (2 * a * 10 ^ 6 + 2 ^ unit_exponent) / 2 ^ (unit_exponent + 1).

Definition fixedDigits (n : Z) : string :=
  let m := if n =? 0 then "0" else decimalDigits n in
  let k := String.length m in
  let m := if (k <=? fractionDigits)%nat then zeros (fractionDigits + 1 - k) ++ m else m in
  let k := String.length m in
  substring 0 (k - fractionDigits) m ++ "." ++ substring (k - fractionDigits) fractionDigits m.

Definition toFixed6 (x : number) : string :=
  match x with
  | NaN => "NaN"
  | Infinity false => "Infinity"
  | Infinity true => "-Infinity"
  | Finite u =>
      let s := if u <? 0 then "-" else "" in
      let a := Z.abs u in
      if 10 ^ 21 * 2 ^ unit_exponent <=? a
      then s ++ Number_toString_large (a / 2 ^ unit_exponent)
      else s ++ fixedDigits (scaledNearest a)
  end.

(** ** Strings

    A string is a sequence of UTF-16 code units; the embedding keeps code
    units below 256, one [ascii] each, which covers every string the
    component builds (digits, signs, product names, the fixed URL text). *)

Fixpoint join (sep : string) (parts : list string) : string :=
  match parts with
  | [] => ""
  | [p] => p
  | p :: rest => p ++ sep ++ join sep rest
  end.

Definition isDigit (c : ascii) : bool :=
  let n := nat_of_ascii c in ((48 <=? n) && (n <=? 57))%nat.

Definition isAlpha (c : ascii) : bool :=
  let n := nat_of_ascii c in
  (((65 <=? n) && (n <=? 90)) || ((97 <=? n) && (n <=? 122)))%nat.

Fixpoint contains (c : ascii) (s : string) : bool :=
  match s with
  | "" => false
  | String c' rest => Ascii.eqb c c' || contains c rest
  end.

(** Characters [encodeURIComponent] leaves as they are: letters, digits and
    [- _ . ! ~ * ' ( )]. *)
Definition isUnreserved (c : ascii) : bool :=
  isAlpha c || isDigit c || contains c "-_.!~*'()".

Definition hexChar (n : nat) : ascii :=
  if (n <? 10)%nat then ascii_of_nat (48 + n) else ascii_of_nat (55 + n).

Definition percentByte (b : nat) : string :=
  String "%" (String (hexChar (b / 16)) (String (hexChar (b mod 16)) "")).

(** One code unit: itself when unreserved, else the escaped bytes of its
    UTF-8 encoding (one byte below 128, two bytes from 128 to 255). *)
Definition encodeUnit (c : ascii) : string :=
  let n := nat_of_ascii c in
  if isUnreserved c then String c ""
  else if (n <? 128)%nat then percentByte n
  else percentByte (192 + n / 64) ++ percentByte (128 + n mod 64).

Fixpoint encodeURIComponent (s : string) : string :=
  match s with
  | "" => ""
  | String c rest => encodeUnit c ++ encodeURIComponent rest
  end.



(** The value of a string of decimal digits ([None] when a character is not
    a digit or the string is empty). *)
Fixpoint digitsValueFrom (acc : Z) (s : string) : option Z :=
  match s with
  | "" => Some acc
  | String c rest =>
      if isDigit c
      then digitsValueFrom (10 * acc + Z.of_nat (nat_of_ascii c - 48)) rest
      else None
  end.

Definition digitsValue (s : string) : option Z :=
  match s with
  | "" => None
  | _ => digitsValueFrom 0 s
  end.

(** ** Plain objects used as maps

    An object keeps its own string-keyed properties in the order
    [Object.keys] lists them: array indices (canonical numeric strings below
    2^32 - 1) in ascending order first, then the other keys in creation
    order. *)

Definition JsObject (V : Type) : Type := list (string * V).

Section JsObjects.
Context {V : Type}.

Definition keys (o : JsObject V) : list string := map fst o.

Fixpoint get (k : string) (o : JsObject V) : option V :=
  match o with
  | [] => None
  | (k', v) :: rest => if String.eqb k' k then Some v else get k rest
  end.

Definition arrayIndex (k : string) : option Z :=
  match k with
  | "" => None
  | String c rest =>
      if Ascii.eqb c "0" && negb (String.eqb rest "") then None
      else match digitsValue k with
           | Some i => if i <? 2 ^ 32 - 1 then Some i else None
           | None => None
           end
  end.

Fixpoint replace (k : string) (v : V) (o : JsObject V) : JsObject V :=
  match o with
  | [] => []
  | (k', v') :: rest =>
      if String.eqb k' k then (k', v) :: rest else (k', v') :: replace k v rest
  end.

Fixpoint insertIndex (i : Z) (k : string) (v : V) (o : JsObject V) : JsObject V :=
  match o with
  | [] => [(k, v)]
  | (k', v') :: rest =>
      match arrayIndex k' with
      | Some j => if j <? i then (k', v') :: insertIndex i k v rest
                  else (k, v) :: o
      | None => (k, v) :: o
      end
  end.

(** [o[k] = v] on an own data property: an existing key keeps its place, a
    new array index goes to its numeric position, any other new key goes
    last. *)
Definition set (k : string) (v : V) (o : JsObject V) : JsObject V :=
  match get k o with
  | Some _ => replace k v o
  | None =>
      match arrayIndex k with
      | Some i => insertIndex i k v o
      | None => (o ++ [(k, v)])%list
      end
  end.
End JsObjects.

(** ** Component state (interface [IsroDataFilterComponentState]) *)

Record State : Type := mkState {
  top : string;
  bottom : string;
  left : string;
  right : string;
  selectedProducts : JsObject bool;
  drawingMode : bool
}.

(** ** Collaborators

    What the component does to the outside is recorded in order of
    occurrence: the alert dialogs, the requests handed to [fetch], the lines
    written with [console.error], the items passed to
    [terria.catalog.userAddedDataGroup.addModel], and the calls to the
    [UserDrawing] instance. *)

#[local] Set Warnings "-register-all".
Inductive Json : Type :=
| JNull
| JBool (b : bool)
| JNumber (n : number)
| JString (s : string)
| JArray (items : list Json)
| JObject (members : list (string * Json)).

Record DataItem : Type := mkDataItem {
  name : string;
  type : string;
  data : Json;
  isEnabled : bool
}.

(** A thrown or rejected value, by its message. *)
Definition JsError : Type := string.

Inductive Effect : Type :=
| Alert (message : string)
| Fetch (url : string)
| ConsoleError (label : string) (error : JsError)
| AddModel (item : DataItem)
| EnterDrawMode
| EndDrawing.

Record World : Type := mkWorld {
  state : State;
  effects : list Effect
}.

Definition setState (f : State -> State) (w : World) : World :=
  mkWorld (f (state w)) (effects w).

Definition perform (e : Effect) (w : World) : World :=
  mkWorld (state w) (effects w ++ [e]).

(** The constructor's [this.state]. *)
Definition initialState : State :=
  {| top := ""; bottom := ""; left := ""; right := "";
     selectedProducts := [("tmc1", true); ("tmc2", true); ("ohrc", true)];
     drawingMode := false |}.

Definition initialWorld : World := mkWorld initialState [].

(** ** Event handlers *)

(** The four inputs wired to [handleInputChange], by their [name]. *)
Inductive CoordField : Type := Top | Bottom | Left | Right.

(** [handleInputChange]: [this.setState({ [name]: value })]. *)
Definition handleInputChange (field : CoordField) (value : string) (w : World) : World :=
  setState (fun s =>
    match field with
    | Top => mkState value (bottom s) (left s) (right s) (selectedProducts s) (drawingMode s)
    | Bottom => mkState (top s) value (left s) (right s) (selectedProducts s) (drawingMode s)
    | Left => mkState (top s) (bottom s) value (right s) (selectedProducts s) (drawingMode s)
    | Right => mkState (top s) (bottom s) (left s) value (selectedProducts s) (drawingMode s)
    end) w.

(** [handleProductChange]: the new map is a copy of the previous one (the
    spread keeps keys and order) with [name] set to [checked]. *)
Definition handleProductChange (name : string) (checked : bool) (w : World) : World :=
  setState (fun prevState =>
    mkState (top prevState) (bottom prevState) (left prevState) (right prevState)
            (set name checked (selectedProducts prevState))
            (drawingMode prevState)) w.

Definition setDrawingMode (b : bool) (s : State) : State :=
  mkState (top s) (bottom s) (left s) (right s) (selectedProducts s) b.

Definition activateDrawing (w : World) : World :=
  perform EnterDrawMode (setState (setDrawingMode true) w).

Definition onDrawingCleanUp (w : World) : World :=
  setState (setDrawingMode false) w.

(** ** Bounding box of the drawn points *)

(** A point entity's position at the current time, already projected on the
    WGS84 ellipsoid and converted to degrees
    ([CesiumMath.toDegrees(carto.latitude)], [... carto.longitude]); the
    projection is Cesium's and is taken as given. *)
Record Position : Type := mkPosition {
  latitude : number;
  longitude : number
}.

(** [entity.position.getValue(currentTime)] may be undefined. *)
Definition Entity : Type := option Position.

(** The [forEach] loop: the latitudes and longitudes of the entities that
    have a position, in entity order. *)
Fixpoint collect (entities : list Entity) : list number * list number :=
  match entities with
  | [] => ([], [])
  | None :: rest => collect rest
  | Some pos :: rest =>
      let (lats, lons) := collect rest in
      (latitude pos :: lats, longitude pos :: lons)
  end.

Record BoundingBox : Type := mkBox {
  boxTop : number;
  boxBottom : number;
  boxLeft : number;
  boxRight : number
}.

(** The four extremes, when both lists are non-empty
    ([if (lats.length && lons.length)]). *)
Definition boundingBox (lats lons : list number) : option BoundingBox :=
  match lats, lons with
  | _ :: _, _ :: _ =>
      Some (mkBox (Math.max lats) (Math.min lats) (Math.min lons) (Math.max lons))
  | _, _ => None
  end.

(** [this.setState({ top, bottom, left, right, drawingMode: false })] with
    each bound printed by [toFixed(6)]. *)
Definition applyBoundingBox (box : BoundingBox) (s : State) : State :=
  mkState (toFixed6 (boxTop box)) (toFixed6 (boxBottom box))
          (toFixed6 (boxLeft box)) (toFixed6 (boxRight box))
          (selectedProducts s) false.

(** [onDrawingUpdated]; [closeLoop] is [this.userDrawing.closeLoop] at the
    time of the call. *)
Definition onDrawingUpdated (closeLoop : bool) (entities : list Entity) (w : World) : World :=
  if closeLoop && (3 <=? List.length entities)%nat then
    let (lats, lons) := collect entities in
    match boundingBox lats lons with
    | Some box => perform EndDrawing (setState (applyBoundingBox box) w)
    | None => w
    end
  else w.

(** ** The WFS query *)

Definition geoServerUrl : string := "http://your-geoserver-url/geoserver/wfs".

Definition wktPolygon (s : State) : string :=
  "POLYGON((" ++ left s ++ " " ++ bottom s ++ ", "
              ++ right s ++ " " ++ bottom s ++ ", "
              ++ right s ++ " " ++ top s ++ ", "
              ++ left s ++ " " ++ top s ++ ", "
              ++ left s ++ " " ++ bottom s ++ "))".

(** [selectedProducts[key]] read as a condition. *)
Definition selectedFlag (o : JsObject bool) (key : string) : bool :=
  match get key o with
  | Some flag => flag
  | None => false
  end.

(** [Object.keys(selectedProducts).filter(key => selectedProducts[key])] *)
Definition selectedWorkspaces (s : State) : list string :=
  filter (selectedFlag (selectedProducts s)) (keys (selectedProducts s)).

Definition typeNames (s : State) : string :=
  join "," (map (fun ws => ws ++ ":datapoints") (selectedWorkspaces s)).

Definition cqlFilter (s : State) : string :=
  "INTERSECTS(geom, " ++ wktPolygon s ++ ")".

Definition wfsUrl (s : State) : string :=
  geoServerUrl ++ "?service=WFS&version=1.1.0&request=GetFeature&typeName="
    ++ typeNames s ++ "&cql_filter=" ++ encodeURIComponent (cqlFilter s)
    ++ "&outputFormat=application/json".

Definition isEmpty (s : string) : bool :=
  match s with "" => true | _ => false end.

Definition coordinatesAlert : string :=
  "Please provide all coordinate values for the area of interest.".

Definition productsAlert : string :=
  "Please select at least one data product.".

(** [queryGeoServer], up to the call of [fetch]. *)
Definition queryGeoServer (w : World) : World :=
  let s := state w in
  if isEmpty (top s) || isEmpty (bottom s) || isEmpty (left s) || isEmpty (right s)
  then perform (Alert coordinatesAlert) w
  else match selectedWorkspaces s with
       | [] => perform (Alert productsAlert) w
       | _ :: _ => perform (Fetch (wfsUrl s)) w
       end.

(** [addDataToWorkbench] *)
Definition addDataToWorkbench (geoJsonData : Json) (w : World) : World :=
  let dataItem :=
    {| name := "Filtered Data"; type := "geojson";
       data := geoJsonData; isEnabled := true |} in
  perform (AddModel dataItem) w.

(** What [fetch] settles with: a rejection, or a response whose [json()]
    either yields the parsed body or rejects. *)
Record Response : Type := mkResponse {
  ok : bool;
  status : Z;
  json : JsError + Json
}.

Inductive FetchResult : Type :=
| Rejected (error : JsError)
| Resolved (response : Response).

Definition logQueryError (error : JsError) (w : World) : World :=
  perform (ConsoleError "Error querying GeoServer:" error) w.

(** The chain
    [.then(response => response.json()).then(geoJsonData => ...).catch(...)]
    run on the settled request. *)
Definition fetchSettled (r : FetchResult) (w : World) : World :=
  match r with
  | Rejected error => logQueryError error w
  | Resolved response =>
      match json response with
      | inl error => logQueryError error w
      | inr geoJsonData => addDataToWorkbench geoJsonData w
      end
  end.

Definition deactivate (w : World) : World := perform EndDrawing w.

Definition activate (w : World) : World := perform EnterDrawMode w.

(** ** The component as a transition system *)

Inductive Event : Type :=
| InputChange (field : CoordField) (value : string)
| ProductChange (name : string) (checked : bool)
| ActivateDrawing
| DrawingUpdated (closeLoop : bool) (entities : list Entity)
| DrawingCleanUp
| QueryGeoServer
| FetchSettled (r : FetchResult)
| Activate
| Deactivate.

Definition step (w : World) (e : Event) : World :=
  match e with
  | InputChange field value => handleInputChange field value w
  | ProductChange name checked => handleProductChange name checked w
  | ActivateDrawing => activateDrawing w
  | DrawingUpdated closeLoop entities => onDrawingUpdated closeLoop entities w
  | DrawingCleanUp => onDrawingCleanUp w
  | QueryGeoServer => queryGeoServer w
  | FetchSettled r => fetchSettled r w
  | Activate => activate w
  | Deactivate => deactivate w
  end.

Definition run (events : list Event) (w : World) : World :=
  fold_left step events w.

(** ** Scenarios of the specification *)

Definition scenarioA : list Position :=
  [ mkPosition (ofInteger 10) (ofInteger 10);
    mkPosition (ofInteger 10) (ofInteger 20);
    mkPosition (ofInteger 20) (ofInteger 20);
    mkPosition (ofInteger 20) (ofInteger 10) ].

Definition scenarioB : State :=
  {| top := "48.9"; bottom := "48.8"; left := "2.33"; right := "2.35";
     selectedProducts := [("tmc1", true); ("tmc2", false); ("ohrc", true)];
     drawingMode := false |}.

Definition scenarioC : State :=
  {| top := "48.9"; bottom := ""; left := "2.33"; right := "2.35";
     selectedProducts := [("tmc1", true); ("tmc2", true); ("ohrc", true)];
     drawingMode := false |}.

Definition scenarioD : Json :=
  JObject [("type", JString "FeatureCollection"); ("features", JArray [])].

(** ** Notions used in the statements *)

(** *** The product selection *)

(** A list of entries stands for an object when no key occurs twice. *)
Definition distinctKeys {V : Type} (o : JsObject V) : Prop := NoDup (keys o).

(** The ids whose flag is set, in the order of the map. *)
Definition selectedIds (o : JsObject bool) : list string :=
  map fst (filter snd o).

Definition noProductSelected (s : State) : Prop :=
  forall id, get id (selectedProducts s) <> Some true.

(** *** The coordinate fields *)

Definition anyCoordinateEmpty (s : State) : Prop :=
  top s = "" \/ bottom s = "" \/ left s = "" \/ right s = "".

Definition allCoordinatesPresent (s : State) : Prop :=
  top s <> "" /\ bottom s <> "" /\ left s <> "" /\ right s <> "".

(** *** Settled requests *)

(** The failures the chain catches: a rejected request, or a response whose
    body does not parse. *)
Definition failureCause (r : FetchResult) : option JsError :=
  match r with
  | Rejected error => Some error
  | Resolved response =>
      match json response with
      | inl error => Some error
      | inr _ => None
      end
  end.

(** *** Extremes *)

(** A number that is not [NaN]; a point whose two coordinates are. *)
Definition properNumber (x : number) : Prop := isNaN x = false.

Definition properPosition (p : Position) : Prop :=
  properNumber (latitude p) /\ properNumber (longitude p).

Definition isMaximumOf (m : number) (values : list number) : Prop :=
  In m values /\ forall x, In x values -> num_leb x m = true.

Definition isMinimumOf (m : number) (values : list number) : Prop :=
  In m values /\ forall x, In x values -> num_leb m x = true.

(** *** Reading decimal text *)

(** [s] cut at the first occurrence of [c]. *)
Fixpoint splitAt (c : ascii) (s : string) : option (string * string) :=
  match s with
  | "" => None
  | String c' rest =>
      if Ascii.eqb c' c then Some ("", rest)
      else match splitAt c rest with
           | Some (before, after) => Some (String c' before, after)
           | None => None
           end
  end.

(** The rational written as digits, a point and digits: the digits read as
    an integer, over 10 to the number of decimals. *)
Definition readUnsigned (negative : bool) (body : string) : option Q :=
  match splitAt "." body with
  | Some (whole, decimals) =>
      match digitsValue whole, digitsValue decimals with
      | Some i, Some f =>
          let n := i * 10 ^ Z.of_nat (String.length decimals) + f in
          Some (Qmake (if negative then - n else n)
                      (10 ^ Pos.of_nat (String.length decimals))%positive)
      | _, _ => None
      end
  | None => None
  end.

(** The same after an optional minus sign. *)
Definition readDecimal (s : string) : option Q :=
  match s with
  | String c rest =>
      if Ascii.eqb c "-" then readUnsigned true rest else readUnsigned false s
  | "" => None
  end.

(** Finite and of magnitude below 10^21: where [toFixed] writes fixed
    notation. *)
Definition fixedRange (x : number) : bool :=
  match x with
  | Finite u => Z.abs u <? 10 ^ 21 * 2 ^ unit_exponent
  | _ => false
  end.

(** [text] reads as [x] rounded to six decimals: a multiple [n / 10^6] of
    10^-6 at distance at most half of 10^-6 from [x], the one away from zero
    when [x] is half way between two. *)
Definition roundedToSix (text : string) (x : number) : Prop :=
  exists u n : Z,
    x = Finite u /\
    readDecimal text = Some (n # 1000000) /\
    (Qabs ((n # 1000000) - valueQ u) <= 1 # 2000000)%Q /\
    ((Qabs ((n # 1000000) - valueQ u) == 1 # 2000000)%Q ->
     (Qabs (valueQ u) < Qabs (n # 1000000))%Q).

(** *** Sample inputs *)

(** The initial component after the three checkboxes were cleared. *)
Definition threeDeselected : World :=
  run [ProductChange "tmc1" false; ProductChange "tmc2" false;
       ProductChange "ohrc" false] initialWorld.

(** The four fields typed in, then the three checkboxes cleared. *)
Definition deselectEverything : list Event :=
  [ InputChange Top "48.9"; InputChange Bottom "48.8";
    InputChange Left "2.33"; InputChange Right "2.35";
    ProductChange "tmc1" false; ProductChange "tmc2" false;
    ProductChange "ohrc" false ].

(** The body of an error response that parses as JSON. *)
Definition errorReport : Json :=
  JObject [("error", JString "Internal Server Error")].

(** A box with a bound half way between two multiples of 10^-6 (1/128),
    its opposite, the double nearest to 0.1 and an integer. *)
Definition sampleBox : BoundingBox :=
  {| boxTop := ofBinary 1 (-7); boxBottom := ofBinary (-1) (-7);
     boxLeft := ofBinary 3602879701896397 (-55); boxRight := ofInteger 20 |}.

(** *** Positioned entities *)

(** The positions of the entities that have one, in entity order. *)
Fixpoint positioned (entities : list Entity) : list Position :=
  match entities with
  | [] => []
  | None :: rest => positioned rest
  | Some pos :: rest => pos :: positioned rest
  end.

(** The four extremes of lines 113-116 over the positions [points];
    [boundingBox] returns this box when the list is not empty. *)
Definition boxOver (points : list Position) : BoundingBox :=
  mkBox (Math.max (map latitude points)) (Math.min (map latitude points))
        (Math.min (map longitude points)) (Math.max (map longitude points)).

(** A point whose two coordinates are written in fixed notation. *)
Definition fixedPosition (p : Position) : Prop :=
  fixedRange (latitude p) = true /\ fixedRange (longitude p) = true.

(** [text] reads as the multiple [n / 10^6] of 10^-6. *)
Definition readsMicro (text : string) (n : Z) : Prop :=
  readDecimal text = Some (n # 1000000).


(** The integer [toFixed(6)] writes for the finite number of [u] units: the
    nearest to [u * 10^6 / 2^1074], away from zero when two are as near. *)
Definition microOf (u : Z) : Z :=
  if u <? 0 then - scaledNearest (Z.abs u) else scaledNearest (Z.abs u).


(** *** The three checkboxes *)

Definition uiProducts : list string := ["tmc1"; "tmc2"; "ohrc"].

(** An event the rendered controls can produce: product toggles carry the
    name of one of the three checkboxes. *)
Definition uiEvent (e : Event) : Prop :=
  match e with
  | ProductChange name _ => In name uiProducts
  | _ => True
  end.


(** ** The rendered controls ([render])

    What [render] puts on the page, as far as the behaviour goes: the three
    checkboxes, the four number inputs and the two buttons, in document
    order, each with its [name], what it displays and the handler it is
    wired to. *)

Inductive Handler : Type :=
| RunHandleInputChange
| RunHandleProductChange
| RunActivateDrawing
| RunQueryGeoServer.

Inductive Control : Type :=
| Checkbox (name : string) (checked : option bool) (onChange : Handler)
| NumberInput (name : string) (value : string) (placeholder : string)
              (onChange : Handler)
| Button (label : string) (onClick : Handler).

Definition render (s : State) : list Control :=
  [ Checkbox "tmc1" (get "tmc1" (selectedProducts s)) RunHandleProductChange;
    Checkbox "tmc2" (get "tmc2" (selectedProducts s)) RunHandleProductChange;
    Checkbox "ohrc" (get "ohrc" (selectedProducts s)) RunHandleProductChange;
    NumberInput "top" (top s) "e.g. 48.9" RunHandleInputChange;
    NumberInput "bottom" (bottom s) "e.g. 48.8" RunHandleInputChange;
    NumberInput "left" (left s) "e.g. 2.33" RunHandleInputChange;
    NumberInput "right" (right s) "e.g. 2.35" RunHandleInputChange;
    Button "Use Draw on Map" RunActivateDrawing;
    Button "Query Data" RunQueryGeoServer ].

(** The state key a [name] stands for in [{ [name]: value }], among the four
    coordinate fields. *)
Definition coordFieldOfName (name : string) : option CoordField :=
  if String.eqb name "top" then Some Top
  else if String.eqb name "bottom" then Some Bottom
  else if String.eqb name "left" then Some Left
  else if String.eqb name "right" then Some Right
  else None.

(** The event a change of the control raises, [value] and [checked] being
    those of [e.target]; [None] where the name is not one of the keys the
    handlers are modelled for. *)
Definition changeEvent (c : Control) (value : string) (checked : bool) : option Event :=
  match c with
  | Checkbox name _ RunHandleProductChange => Some (ProductChange name checked)
  | NumberInput name _ _ RunHandleInputChange =>
      match coordFieldOfName name with
      | Some field => Some (InputChange field value)
      | None => None
      end
  | _ => None
  end.

(** *** Counting *)

Definition isQueryEvent (e : Event) : bool :=
  match e with QueryGeoServer => true | _ => false end.

Definition isSettledEvent (e : Event) : bool :=
  match e with FetchSettled _ => true | _ => false end.

(** What a query answers with: an alert or a request. *)
Definition isQueryAnswer (e : Effect) : bool :=
  match e with Alert _ | Fetch _ => true | _ => false end.

(** What a settled request ends in: a logged error or a workbench item. *)
Definition isSettledOutcome (e : Effect) : bool :=
  match e with ConsoleError _ _ | AddModel _ => true | _ => false end.

Definition count {A : Type} (p : A -> bool) (l : list A) : nat :=
  List.length (filter p l).

(** *** Undoing the escapes

    The inverse of [encodeURIComponent] on what it produces: percent escapes
    back to bytes, then one- and two-byte UTF-8 sequences back to code units
    below 256. *)

Definition hexValue (c : ascii) : option nat :=
  let n := nat_of_ascii c in
  if isDigit c then Some (n - 48)%nat
  else if ((65 <=? n) && (n <=? 70))%nat then Some (n - 55)%nat
  else None.

Fixpoint unescapeBytes (s : string) : option (list nat) :=
  match s with
  | "" => Some []
  | String c rest =>
      if Ascii.eqb c "%" then
        match rest with
        | String h1 (String h2 rest') =>
            match hexValue h1, hexValue h2, unescapeBytes rest' with
            | Some a, Some b, Some bytes => Some ((16 * a + b)%nat :: bytes)
            | _, _, _ => None
            end
        | _ => None
        end
      else
        match unescapeBytes rest with
        | Some bytes => Some (nat_of_ascii c :: bytes)
        | None => None
        end
  end.

Fixpoint utf8Units (bytes : list nat) : option string :=
  match bytes with
  | [] => Some ""
  | b :: rest =>
      if (b <? 128)%nat then
        match utf8Units rest with
        | Some s => Some (String (ascii_of_nat b) s)
        | None => None
        end
      else
        match rest with
        | b2 :: rest' =>
            if ((194 <=? b) && (b <=? 195) && (128 <=? b2) && (b2 <? 192))%nat then
              match utf8Units rest' with
              | Some s => Some (String (ascii_of_nat ((b - 192) * 64 + (b2 - 128))) s)
              | None => None
              end
            else None
        | [] => None
        end
  end.

Definition unescape (s : string) : option string :=
  match unescapeBytes s with
  | Some bytes => utf8Units bytes
  | None => None
  end.

(** The UTF-8 bytes of a code unit below 256. *)
Definition utf8Bytes (c : ascii) : list nat :=
  let n := nat_of_ascii c in
  if (n <? 128)%nat then [n] else [(192 + n / 64)%nat; (128 + n mod 64)%nat].

Fixpoint utf8BytesOf (s : string) : list nat :=
  match s with
  | "" => []
  | String c rest => (utf8Bytes c ++ utf8BytesOf rest)%list
  end.


(** * Properties *)

(** ** Strings *)

Lemma append_assoc (s1 s2 s3 : string) : (s1 ++ s2) ++ s3 = s1 ++ (s2 ++ s3).
Proof. induction s1 as [|c s1 IH]; simpl; [reflexivity | now rewrite IH]. Qed.

Lemma append_nil_r (s : string) : s ++ "" = s.
Proof. induction s as [|c s IH]; simpl; [reflexivity | now rewrite IH]. Qed.

Lemma length_append (s1 s2 : string) :
  String.length (s1 ++ s2) = (String.length s1 + String.length s2)%nat.
Proof. induction s1 as [|c s1 IH]; simpl; [reflexivity | now rewrite IH]. Qed.




(** ** Objects *)

Section JsObjectFacts.
Context {V : Type}.
Implicit Types (o : JsObject V) (k : string) (v : V).

Lemma get_replace k k' v o :
  get k' (replace k v o) =
  if String.eqb k' k then (match get k o with Some _ => Some v | None => None end)
  else get k' o.
Proof.
  induction o as [|[k0 v0] o IH]; simpl.
  - now destruct (String.eqb k' k).
  - destruct (String.eqb k0 k) eqn:E0; simpl.
    + apply String.eqb_eq in E0; subst k0.
      rewrite (String.eqb_sym k k').
      now destruct (String.eqb k' k).
    + destruct (String.eqb k0 k') eqn:E1.
      * apply String.eqb_eq in E1; subst k0.
        now rewrite E0.
      * exact IH.
Qed.

Lemma get_insertIndex i k k' v o :
  get k o = None ->
  get k' (insertIndex i k v o) = if String.eqb k' k then Some v else get k' o.
Proof.
  induction o as [|[k0 v0] o IH]; simpl; intros Hk.
  - now rewrite (String.eqb_sym k k').
  - destruct (String.eqb k0 k) eqn:E0; [discriminate|].
    assert (Hins : get k' ((k, v) :: (k0, v0) :: o)
                   = if String.eqb k' k then Some v
                     else if String.eqb k0 k' then Some v0 else get k' o).
    { simpl. now rewrite (String.eqb_sym k k'). }
    destruct (arrayIndex k0) as [j|]; [destruct (j <? i)|]; try exact Hins.
    simpl. destruct (String.eqb k0 k') eqn:E1.
    + apply String.eqb_eq in E1; subst k0. now rewrite E0.
    + now apply IH.
Qed.

Lemma get_app_last k k' v o :
  get k o = None ->
  get k' (o ++ [(k, v)])%list = if String.eqb k' k then Some v else get k' o.
Proof.
  induction o as [|[k0 v0] o IH]; simpl; intros Hk.
  - now rewrite (String.eqb_sym k k').
  - destruct (String.eqb k0 k) eqn:E0; [discriminate|].
    destruct (String.eqb k0 k') eqn:E1.
    + apply String.eqb_eq in E1; subst k0. now rewrite E0.
    + now apply IH.
Qed.

(** Reading after writing: the written key holds the new value, every
    other key what it held. *)
Lemma get_set k k' v o :
  get k' (set k v o) = if String.eqb k' k then Some v else get k' o.
Proof.
  unfold set. destruct (get k o) as [v0|] eqn:Hk.
  - rewrite get_replace, Hk. reflexivity.
  - destruct (arrayIndex k) as [i|].
    + now apply get_insertIndex.
    + now apply get_app_last.
Qed.

Lemma get_In k o : get k o <> None <-> In k (keys o).
Proof.
  induction o as [|[k0 v0] o IH]; simpl.
  - split; [congruence | tauto].
  - destruct (String.eqb k0 k) eqn:E.
    + apply String.eqb_eq in E. split; [now left | congruence].
    + apply String.eqb_neq in E. rewrite IH. split; [now right | tauto].
Qed.

Lemma In_replace k k' v o : In k' (keys (replace k v o)) <-> In k' (keys o).
Proof.
  induction o as [|[k0 v0] o IH]; simpl; [tauto|].
  destruct (String.eqb k0 k); simpl; [tauto | now rewrite IH].
Qed.

Lemma keys_replace k v o : keys (replace k v o) = keys o.
Proof.
  induction o as [|[k0 v0] o IH]; simpl; [reflexivity|].
  destruct (String.eqb k0 k); simpl; [reflexivity | now rewrite IH].
Qed.

Lemma In_insertIndex i k k' v o :
  In k' (keys (insertIndex i k v o)) <-> k = k' \/ In k' (keys o).
Proof.
  induction o as [|[k0 v0] o IH]; simpl; [tauto|].
  destruct (arrayIndex k0) as [j|]; [destruct (j <? i)|]; simpl; rewrite ?IH; tauto.
Qed.

Lemma NoDup_insertIndex i k v o :
  ~ In k (keys o) -> NoDup (keys o) -> NoDup (keys (insertIndex i k v o)).
Proof.
  induction o as [|[k0 v0] o IH]; simpl; intros Hk Hnd.
  - constructor; [tauto | constructor].
  - inversion Hnd as [|? ? Hk0 Hnd']; subst.
    assert (Hcons : NoDup (keys ((k, v) :: (k0, v0) :: o))).
    { simpl. constructor; [simpl; tauto | exact Hnd]. }
    destruct (arrayIndex k0) as [j|]; [destruct (j <? i)|]; try exact Hcons.
    simpl. constructor.
    + rewrite In_insertIndex. intros [->|H]; tauto.
    + apply IH; tauto.
Qed.

(** Writing keeps the keys of an object distinct. *)
Lemma NoDup_set k v o : NoDup (keys o) -> NoDup (keys (set k v o)).
Proof.
  intros Hnd. unfold set. destruct (get k o) as [v0|] eqn:Hk.
  - now rewrite keys_replace.
  - assert (Hnot : ~ In k (keys o)) by (rewrite <- get_In; congruence).
    destruct (arrayIndex k) as [i|].
    + now apply NoDup_insertIndex.
    + unfold keys. rewrite map_app. simpl.
      apply NoDup_app; [exact Hnd | constructor; [simpl; tauto | constructor] |].
      intros x Hx [<-|[]]. exact (Hnot Hx).
Qed.
End JsObjectFacts.

(** ** Selected products *)

Lemma selectedWorkspaces_unfold s :
  selectedWorkspaces s = filter (selectedFlag (selectedProducts s)) (keys (selectedProducts s)).
Proof. reflexivity. Qed.

(** On an object (distinct keys) filtering the keys by their flag lists the
    entries whose flag is set. *)
Lemma selectedWorkspaces_selectedIds s :
  NoDup (keys (selectedProducts s)) ->
  selectedWorkspaces s = selectedIds (selectedProducts s).
Proof.
  rewrite selectedWorkspaces_unfold. unfold selectedIds.
  induction (selectedProducts s) as [|[k0 v0] o IH]; simpl; intros Hnd; [reflexivity|].
  inversion Hnd as [|? ? Hk0 Hnd']; subst.
  unfold selectedFlag at 1. simpl. rewrite String.eqb_refl.
  assert (Htail : filter (selectedFlag ((k0, v0) :: o)) (keys o)
                  = filter (selectedFlag o) (keys o)).
  { apply filter_ext_in. intros k Hk. unfold selectedFlag. simpl.
    destruct (String.eqb k0 k) eqn:E; [|reflexivity].
    apply String.eqb_eq in E. subst k0. contradiction. }
  rewrite Htail, IH by assumption.
  now destruct v0.
Qed.

Lemma selectedWorkspaces_nil s :
  selectedWorkspaces s = [] <->
  forall id, get id (selectedProducts s) <> Some true.
Proof.
  rewrite selectedWorkspaces_unfold. split.
  - intros Hnil id Hid.
    assert (Hin : In id (keys (selectedProducts s))) by (apply get_In; congruence).
    assert (Hf : In id (filter (selectedFlag (selectedProducts s)) (keys (selectedProducts s)))).
    { apply filter_In. split; [exact Hin|]. unfold selectedFlag. now rewrite Hid. }
    rewrite Hnil in Hf. exact Hf.
  - intros Hnone.
    destruct (filter _ _) as [|k l] eqn:Hf; [reflexivity|].
    assert (Hk : In k (filter (selectedFlag (selectedProducts s)) (keys (selectedProducts s))))
      by (rewrite Hf; now left).
    apply filter_In in Hk. destruct Hk as [_ Hk]. unfold selectedFlag in Hk.
    destruct (get k (selectedProducts s)) as [[|]|] eqn:Hg; try discriminate.
    now elim (Hnone k).
Qed.

(** ** Reachable states keep the product map well formed *)

Lemma step_selectedProducts w e :
  selectedProducts (state (step w e)) =
  match e with
  | ProductChange name checked => set name checked (selectedProducts (state w))
  | _ => selectedProducts (state w)
  end.
Proof.
  destruct e as [field value| | |closeLoop entities| | |r| |]; try reflexivity.
  - now destruct field.
  - simpl. unfold onDrawingUpdated.
    destruct (closeLoop && _); [|reflexivity].
    destruct (collect entities) as [lats lons].
    now destruct (boundingBox lats lons).
  - simpl. unfold queryGeoServer.
    destruct (_ || _); [reflexivity|].
    now destruct (selectedWorkspaces (state w)).
  - destruct r as [error|response]; simpl; [reflexivity|].
    now destruct (json response).
Qed.

Lemma run_distinctKeys events : forall w,
  distinctKeys (selectedProducts (state w)) ->
  distinctKeys (selectedProducts (state (run events w))).
Proof.
  induction events as [|e events IH]; intros w Hnd; [exact Hnd|].
  apply IH. rewrite step_selectedProducts.
  destruct e; try exact Hnd. now apply NoDup_set.
Qed.

Lemma initial_distinctKeys : distinctKeys (selectedProducts (state initialWorld)).
Proof.
  unfold distinctKeys. simpl. repeat constructor; simpl; intuition discriminate.
Qed.

(** Every state the component reaches has one. *)
Lemma reachable_distinctKeys events :
  distinctKeys (selectedProducts (state (run events initialWorld))).
Proof. apply run_distinctKeys, initial_distinctKeys. Qed.

(** ** Fewer than three points *)

(** C5. A drawing update with fewer than three point entities changes
    nothing: no bounding box is computed, the four coordinate fields (and the
    rest of the state) stay as they were, and nothing is reported or signalled
    to any collaborator, whatever the close-loop flag. *)
Theorem onDrawingUpdated_fewer_than_three :
  forall (closeLoop : bool) (entities : list Entity) (w : World),
    (List.length entities < 3)%nat ->
    onDrawingUpdated closeLoop entities w = w.
Proof.
  intros closeLoop entities w Hlen. unfold onDrawingUpdated.
  replace (3 <=? List.length entities)%nat with false
    by (symmetry; apply Nat.leb_gt; exact Hlen).
  now rewrite andb_false_r.
Qed.

Lemma onDrawingUpdated_fewer_than_three_witness :
  (List.length [Some (mkPosition (ofInteger 10) (ofInteger 10));
                Some (mkPosition (ofInteger 10) (ofInteger 20))] < 3)%nat /\
  onDrawingUpdated true
    [Some (mkPosition (ofInteger 10) (ofInteger 10));
     Some (mkPosition (ofInteger 10) (ofInteger 20))]
    (mkWorld scenarioB []) = mkWorld scenarioB [].
Proof.
  split.
  - simpl. lia.
  - apply (onDrawingUpdated_fewer_than_three true
             [Some (mkPosition (ofInteger 10) (ofInteger 10));
              Some (mkPosition (ofInteger 10) (ofInteger 20))]
             (mkWorld scenarioB [])).
    simpl. lia.
Defined.

(** Until the loop is closed nothing is computed either, however many
    points were drawn. *)
Lemma onDrawingUpdated_open_loop entities w :
  onDrawingUpdated false entities w = w.
Proof. reflexivity. Qed.

(** Entities without a position are skipped: with none positioned there is
    no box. *)
Lemma onDrawingUpdated_no_position closeLoop n w :
  onDrawingUpdated closeLoop (repeat None n) w = w.
Proof.
  unfold onDrawingUpdated. destruct (closeLoop && _); [|reflexivity].
  replace (collect (repeat None n)) with (@nil number, @nil number);
    [reflexivity|].
  induction n as [|n IH]; simpl; [reflexivity | exact IH].
Qed.

(** ** The workbench item *)

(** C6. [addDataToWorkbench] is a total function of the document: it leaves
    the component state alone and hands the catalog exactly one item, with
    name "Filtered Data", type "geojson", the document itself as data and
    isEnabled true; a response whose body parses reaches the catalog through
    it unchanged.  On the empty feature collection of Scenario D the item is
    the one the specification lists. *)
Theorem addDataToWorkbench_item :
  (forall (geoJsonData : Json) (w : World),
      state (addDataToWorkbench geoJsonData w) = state w /\
      effects (addDataToWorkbench geoJsonData w) =
        (effects w ++ [AddModel (mkDataItem "Filtered Data" "geojson" geoJsonData true)])%list) /\
  (forall (okFlag : bool) (code : Z) (geoJsonData : Json) (w : World),
      fetchSettled (Resolved (mkResponse okFlag code (inr geoJsonData))) w =
      addDataToWorkbench geoJsonData w) /\
  effects (addDataToWorkbench scenarioD initialWorld) =
    [AddModel {| name := "Filtered Data"; type := "geojson";
                 data := JObject [("type", JString "FeatureCollection");
                                  ("features", JArray [])];
                 isEnabled := true |}].
Proof.
  repeat split.
Qed.

(** ** What each handler leaves alone *)

Lemma onDrawingUpdated_cases closeLoop entities w :
  onDrawingUpdated closeLoop entities w = w \/
  exists box,
    boundingBox (fst (collect entities)) (snd (collect entities)) = Some box /\
    onDrawingUpdated closeLoop entities w =
      perform EndDrawing (setState (applyBoundingBox box) w).
Proof.
  unfold onDrawingUpdated.
  destruct (closeLoop && _); [|now left].
  destruct (collect entities) as [lats lons]. simpl.
  destruct (boundingBox lats lons) as [box|]; [right; now exists box | now left].
Qed.

Lemma collect_positioned entities :
  collect entities =
  (map latitude (positioned entities), map longitude (positioned entities)).
Proof.
  induction entities as [|[pos|] entities IH]; simpl; [reflexivity | | exact IH].
  now rewrite IH.
Qed.

Lemma positioned_In entities p : In p (positioned entities) <-> In (Some p) entities.
Proof.
  induction entities as [|[pos|] entities IH]; simpl; [tauto | |].
  - rewrite IH. split; (intros [H|H]; [left; congruence | now right]).
  - rewrite IH. split; [now right | intros [H|H]; [discriminate | exact H]].
Qed.

Lemma boundingBox_positioned entities :
  boundingBox (map latitude (positioned entities)) (map longitude (positioned entities)) =
  match positioned entities with
  | [] => None
  | _ :: _ => Some (boxOver (positioned entities))
  end.
Proof. now destruct (positioned entities). Qed.

(** An update that meets the three conditions, in one equation. *)
Lemma onDrawingUpdated_acts (entities : list Entity) p w :
  (3 <= List.length entities)%nat -> In (Some p) entities ->
  onDrawingUpdated true entities w =
    mkWorld (applyBoundingBox (boxOver (positioned entities)) (state w))
            (effects w ++ [EndDrawing]).
Proof.
  intros Hlen Hp. unfold onDrawingUpdated.
  rewrite collect_positioned, boundingBox_positioned.
  replace (3 <=? List.length entities)%nat with true
    by (symmetry; now apply Nat.leb_le).
  apply positioned_In in Hp.
  destruct (positioned entities); [destruct Hp | reflexivity].
Qed.

(** An update that does not meet the three conditions does nothing. *)
Lemma onDrawingUpdated_idle closeLoop (entities : list Entity) w :
  ~ (closeLoop = true /\ (3 <= List.length entities)%nat /\
     exists p, In (Some p) entities) ->
  onDrawingUpdated closeLoop entities w = w.
Proof.
  intros Hnot. unfold onDrawingUpdated.
  rewrite collect_positioned, boundingBox_positioned.
  destruct closeLoop; [|reflexivity].
  destruct (3 <=? List.length entities)%nat eqn:Hlen; [|reflexivity].
  apply Nat.leb_le in Hlen. simpl.
  destruct (positioned entities) as [|p rest] eqn:Hpos; [reflexivity|].
  exfalso. apply Hnot. repeat split; [exact Hlen|].
  exists p. apply positioned_In. rewrite Hpos. now left.
Qed.

(** C10. A drawing update that succeeds (the loop is closed, there are at
    least three entities and one of them has a position) replaces the four
    coordinate fields by the printed extremes of the positioned entities,
    clears the drawing-mode flag, keeps the product map and ends the
    drawing; any other drawing update changes nothing at all.  In both cases
    the product map is the one from before.  Toggling a product leaves the
    four coordinate fields and the drawing-mode flag as they were, sets the
    flag of the toggled id, and leaves the flag of every other id as it
    was. *)
Theorem handlers_frame :
  (forall (closeLoop : bool) (entities : list Entity) (w : World),
      let w' := onDrawingUpdated closeLoop entities w in
      let lats := map latitude (positioned entities) in
      let lons := map longitude (positioned entities) in
      selectedProducts (state w') = selectedProducts (state w) /\
      ((closeLoop = true /\ (3 <= List.length entities)%nat /\
        exists p, In (Some p) entities) ->
         state w' =
           {| top := toFixed6 (Math.max lats); bottom := toFixed6 (Math.min lats);
              left := toFixed6 (Math.min lons); right := toFixed6 (Math.max lons);
              selectedProducts := selectedProducts (state w);
              drawingMode := false |} /\
         effects w' = (effects w ++ [EndDrawing])%list) /\
      (~ (closeLoop = true /\ (3 <= List.length entities)%nat /\
          exists p, In (Some p) entities) ->
         w' = w)) /\
  (forall (id : string) (checked : bool) (w : World),
      let w' := handleProductChange id checked w in
      top (state w') = top (state w) /\
      bottom (state w') = bottom (state w) /\
      left (state w') = left (state w) /\
      right (state w') = right (state w) /\
      drawingMode (state w') = drawingMode (state w) /\
      effects w' = effects w /\
      forall other,
        get other (selectedProducts (state w')) =
        if String.eqb other id then Some checked
        else get other (selectedProducts (state w))).
Proof.
  split.
  - intros closeLoop entities w. cbv zeta.
    split; [|split].
    + destruct (onDrawingUpdated_cases closeLoop entities w) as [->|(box & _ & ->)];
        reflexivity.
    + intros (-> & Hlen & p & Hp).
      rewrite (onDrawingUpdated_acts entities p w Hlen Hp). split; reflexivity.
    + apply onDrawingUpdated_idle.
  - intros id checked w. cbv zeta. repeat (split; [reflexivity|]).
    intros other. simpl. apply get_set.
Qed.

(** A closed loop over the four points of Scenario A, drawn while the
    fields hold the text of Scenario B and the flag is set: the four fields
    and the flag are overwritten, the product map is kept. *)
Lemma handlers_frame_witness :
  (true = true /\ (3 <= List.length (map Some scenarioA))%nat /\
   exists p, In (Some p) (map Some scenarioA)) /\
  state (onDrawingUpdated true (map Some scenarioA)
           (mkWorld (setDrawingMode true scenarioB) [EnterDrawMode])) =
    {| top := "20.000000"; bottom := "10.000000";
       left := "10.000000"; right := "20.000000";
       selectedProducts := [("tmc1", true); ("tmc2", false); ("ohrc", true)];
       drawingMode := false |} /\
  effects (onDrawingUpdated true (map Some scenarioA)
             (mkWorld (setDrawingMode true scenarioB) [EnterDrawMode])) =
    [EnterDrawMode; EndDrawing].
Proof.
  assert (H : true = true /\ (3 <= List.length (map Some scenarioA))%nat /\
              exists p, In (Some p) (map Some scenarioA)).
  { split; [reflexivity|]. split; [simpl; lia|].
    exists (mkPosition (ofInteger 10) (ofInteger 10)). now left. }
  split; [exact H|].
  destruct (proj1 (proj2 (proj1 handlers_frame true (map Some scenarioA)
                            (mkWorld (setDrawingMode true scenarioB) [EnterDrawMode]))) H)
    as [Hstate Heffects].
  split.
  - rewrite Hstate. vm_compute. reflexivity.
  - exact Heffects.
Defined.

(** ** Validation *)

Lemma isEmpty_true s : isEmpty s = true <-> s = "".
Proof. destruct s; simpl; split; congruence. Qed.

Lemma coordinates_guard s :
  isEmpty (top s) || isEmpty (bottom s) || isEmpty (left s) || isEmpty (right s) = true
  <-> anyCoordinateEmpty s.
Proof.
  unfold anyCoordinateEmpty.
  rewrite !orb_true_iff, !isEmpty_true. tauto.
Qed.

Lemma queryGeoServer_incomplete w :
  anyCoordinateEmpty (state w) ->
  queryGeoServer w = perform (Alert coordinatesAlert) w.
Proof.
  intros H. apply coordinates_guard in H. unfold queryGeoServer. now rewrite H.
Qed.

Lemma queryGeoServer_complete w :
  ~ anyCoordinateEmpty (state w) ->
  queryGeoServer w =
  match selectedWorkspaces (state w) with
  | [] => perform (Alert productsAlert) w
  | _ :: _ => perform (Fetch (wfsUrl (state w))) w
  end.
Proof.
  intros H. rewrite <- coordinates_guard in H. apply not_true_is_false in H.
  unfold queryGeoServer. now rewrite H.
Qed.

(** C3, as stated, fails: with every product deselected and the coordinate
    fields still empty, the query reports the missing coordinates and not the
    missing product selection. *)
Lemma no_product_failure_not_unconditional :
  ~ (forall w : World,
       noProductSelected (state w) ->
       effects (queryGeoServer w) = (effects w ++ [Alert productsAlert])%list).
Proof.
  intros H.
  assert (Hnone : noProductSelected (state threeDeselected)).
  { exact (proj1 (selectedWorkspaces_nil (state threeDeselected)) eq_refl). }
  specialize (H threeDeselected Hnone). vm_compute in H. discriminate H.
Qed.

(** C3, amended. The query is refused with the coordinates message
    (the "AOI incomplete" failure) whenever one of the four coordinate fields
    is the empty string, and with the products message (the "no product
    selected" failure) whenever the four fields are non-empty and no product
    id is selected; in both cases the only thing done is that alert: no
    request is issued and the state is unchanged. *)
Theorem queryGeoServer_validation :
  forall w : World,
    anyCoordinateEmpty (state w) \/ noProductSelected (state w) ->
    (anyCoordinateEmpty (state w) ->
       queryGeoServer w = perform (Alert coordinatesAlert) w) /\
    (~ anyCoordinateEmpty (state w) ->
       queryGeoServer w = perform (Alert productsAlert) w) /\
    state (queryGeoServer w) = state w /\
    (forall url, In (Fetch url) (effects (queryGeoServer w)) ->
                 In (Fetch url) (effects w)).
Proof.
  intros w Hfail.
  assert (Hdec : anyCoordinateEmpty (state w) \/ ~ anyCoordinateEmpty (state w)).
  { rewrite <- coordinates_guard. destruct (_ || _); [now left | right; discriminate]. }
  assert (Hno : ~ anyCoordinateEmpty (state w) ->
                queryGeoServer w = perform (Alert productsAlert) w).
  { intros Hc. destruct Hfail as [Hc'|Hp]; [contradiction|].
    apply (proj2 (selectedWorkspaces_nil _)) in Hp.
    rewrite (queryGeoServer_complete w Hc), Hp. reflexivity. }
  split; [apply queryGeoServer_incomplete|]. split; [exact Hno|].
  assert (Halert : exists msg, queryGeoServer w = perform (Alert msg) w).
  { destruct Hdec as [Hc|Hc].
    - exists coordinatesAlert. now apply queryGeoServer_incomplete.
    - exists productsAlert. now apply Hno. }
  destruct Halert as [msg ->]. split; [reflexivity|].
  intros url Hin. simpl in Hin. apply in_app_or in Hin.
  destruct Hin as [Hin|[Hin|[]]]; [exact Hin | discriminate Hin].
Qed.

Lemma queryGeoServer_validation_witness :
  (anyCoordinateEmpty scenarioC \/ noProductSelected scenarioC) /\
  queryGeoServer (mkWorld scenarioC []) =
    mkWorld scenarioC
      [Alert "Please provide all coordinate values for the area of interest."].
Proof.
  assert (Hc : anyCoordinateEmpty (state (mkWorld scenarioC []))).
  { right; left; reflexivity. }
  split.
  - left; exact Hc.
  - exact (proj1 (queryGeoServer_validation (mkWorld scenarioC []) (or_introl Hc)) Hc).
Defined.

(** ** Settling the request *)

(** C4, as stated, fails: the chain never looks at [response.ok] or
    [response.status], so a status-500 response whose body parses as JSON is
    not turned into a logged error; its body goes to the workbench. *)
Lemma non_success_response_reaches_workbench :
  ~ (forall (w : World) (response : Response),
        ok response = false ->
        exists cause, fetchSettled (Resolved response) w = logQueryError cause w).
Proof.
  intros H.
  destruct (H initialWorld (mkResponse false 500 (inr errorReport)) eq_refl)
    as [cause Hcause].
  vm_compute in Hcause. discriminate Hcause.
Qed.

(** C4, amended. When the request is rejected or the body of the response
    does not parse as JSON, the only thing done is one [console.error] line
    carrying the cause: the state is unchanged, nothing is added to the
    workbench and no request is issued again.  The status of the response
    plays no part: a body that parses goes to the workbench whatever
    [response.ok] and [response.status] are. *)
Theorem fetchSettled_failure :
  forall (r : FetchResult) (cause : JsError) (w : World),
    failureCause r = Some cause ->
    fetchSettled r w =
      mkWorld (state w)
              (effects w ++ [ConsoleError "Error querying GeoServer:" cause]) /\
    (forall item, In (AddModel item) (effects (fetchSettled r w)) ->
                  In (AddModel item) (effects w)) /\
    (forall url, In (Fetch url) (effects (fetchSettled r w)) ->
                 In (Fetch url) (effects w)) /\
    (forall (okFlag : bool) (code : Z) (geoJsonData : Json),
        fetchSettled (Resolved (mkResponse okFlag code (inr geoJsonData))) w =
        addDataToWorkbench geoJsonData w).
Proof.
  intros r cause w Hcause.
  assert (Hlog : fetchSettled r w = logQueryError cause w).
  { destruct r as [error|response]; simpl in *.
    - now injection Hcause as ->.
    - destruct (json response) as [error|doc]; [now injection Hcause as -> | discriminate]. }
  rewrite Hlog. split; [reflexivity|].
  split; [|split; [|reflexivity]]; intros x Hin; simpl in Hin; apply in_app_or in Hin;
    (destruct Hin as [Hin|[Hin|[]]]; [exact Hin | discriminate Hin]).
Qed.

Lemma fetchSettled_failure_witness :
  failureCause (Rejected "Failed to fetch") = Some "Failed to fetch" /\
  fetchSettled (Rejected "Failed to fetch") initialWorld =
    mkWorld initialState [ConsoleError "Error querying GeoServer:" "Failed to fetch"].
Proof.
  split.
  - reflexivity.
  - exact (proj1 (fetchSettled_failure (Rejected "Failed to fetch") "Failed to fetch"
                    initialWorld eq_refl)).
Defined.

(** The chain never issues a request, whatever the request settled with. *)
Lemma fetchSettled_no_retry r w url :
  In (Fetch url) (effects (fetchSettled r w)) -> In (Fetch url) (effects w).
Proof.
  destruct r as [error|response]; simpl; [|destruct (json response)]; simpl;
    intros Hin; apply in_app_or in Hin;
    (destruct Hin as [Hin|[Hin|[]]]; [exact Hin | discriminate Hin]).
Qed.

(** ** The request *)

(** C8. The query depends on the four coordinate strings and the product map
    only: two worlds that agree on them (whatever their drawing-mode flag and
    whatever was done before) give the same polygon text, the same type
    names and the same URL, and [queryGeoServer] does the same single thing
    in both. *)
Theorem query_deterministic :
  forall w1 w2 : World,
    top (state w1) = top (state w2) ->
    bottom (state w1) = bottom (state w2) ->
    left (state w1) = left (state w2) ->
    right (state w1) = right (state w2) ->
    selectedProducts (state w1) = selectedProducts (state w2) ->
    wktPolygon (state w1) = wktPolygon (state w2) /\
    typeNames (state w1) = typeNames (state w2) /\
    wfsUrl (state w1) = wfsUrl (state w2) /\
    exists e, queryGeoServer w1 = perform e w1 /\ queryGeoServer w2 = perform e w2.
Proof.
  intros [[t1 b1 l1 r1 p1 d1] e1] [[t2 b2 l2 r2 p2 d2] e2]; simpl.
  intros -> -> -> -> ->.
  repeat split.
  unfold queryGeoServer; simpl.
  destruct (_ || _); [eexists; split; reflexivity|].
  unfold selectedWorkspaces; simpl.
  destruct (filter _ _); eexists; split; reflexivity.
Qed.

Lemma query_deterministic_witness :
  wfsUrl scenarioB = wfsUrl (setDrawingMode true scenarioB) /\
  exists e,
    queryGeoServer (mkWorld scenarioB []) = perform e (mkWorld scenarioB []) /\
    queryGeoServer (mkWorld (setDrawingMode true scenarioB) [EnterDrawMode]) =
      perform e (mkWorld (setDrawingMode true scenarioB) [EnterDrawMode]).
Proof.
  pose proof (query_deterministic
                (mkWorld scenarioB [])
                (mkWorld (setDrawingMode true scenarioB) [EnterDrawMode])
                eq_refl eq_refl eq_refl eq_refl eq_refl) as H.
  exact (conj (proj1 (proj2 (proj2 H))) (proj2 (proj2 (proj2 H)))).
Defined.

(** C1. When the four coordinate fields are non-empty and at least one product
    id of the selection map (an object: its keys are distinct) is selected, the query issues exactly one request and nothing else,
    to the URL made of the endpoint, the fixed WFS parameters, the selected
    ids (in the order of the map) each followed by ":datapoints" and joined
    by commas, and the percent-encoded filter
    INTERSECTS(geom, POLYGON((left bottom, right bottom, right top, left top,
    left bottom))). *)
Theorem queryGeoServer_request :
  forall w : World,
    let s := state w in
    allCoordinatesPresent s ->
    distinctKeys (selectedProducts s) ->
    (exists id, In (id, true) (selectedProducts s)) ->
    queryGeoServer w =
      mkWorld s
        (effects w ++
         [Fetch (geoServerUrl
                 ++ "?service=WFS&version=1.1.0&request=GetFeature&typeName="
                 ++ join "," (map (fun id => id ++ ":datapoints")
                                  (selectedIds (selectedProducts s)))
                 ++ "&cql_filter="
                 ++ encodeURIComponent
                      ("INTERSECTS(geom, POLYGON(("
                       ++ left s ++ " " ++ bottom s ++ ", "
                       ++ right s ++ " " ++ bottom s ++ ", "
                       ++ right s ++ " " ++ top s ++ ", "
                       ++ left s ++ " " ++ top s ++ ", "
                       ++ left s ++ " " ++ bottom s ++ ")))")
                 ++ "&outputFormat=application/json")]).
Proof.
  intros w s (Ht & Hb & Hl & Hr) Hnd [id Hid].
  assert (Hc : ~ anyCoordinateEmpty (state w)).
  { unfold anyCoordinateEmpty. fold s. tauto. }
  rewrite (queryGeoServer_complete w Hc). fold s.
  assert (Hsel : In id (selectedWorkspaces s)).
  { rewrite (selectedWorkspaces_selectedIds s Hnd). unfold selectedIds.
    apply (in_map fst _ (id, true)). apply filter_In. now split. }
  destruct (selectedWorkspaces s) as [|ws rest] eqn:Hws; [contradiction|].
  unfold perform. do 3 f_equal.
  unfold wfsUrl, typeNames, cqlFilter, wktPolygon.
  rewrite Hws, <- (selectedWorkspaces_selectedIds s Hnd), Hws.
  do 5 f_equal.
  now rewrite !append_assoc.
Qed.

Lemma scenarioB_ready :
  allCoordinatesPresent scenarioB /\
  distinctKeys (selectedProducts scenarioB) /\
  (exists id, In (id, true) (selectedProducts scenarioB)).
Proof.
  split; [|split].
  - repeat split; discriminate.
  - unfold distinctKeys. simpl. repeat constructor; simpl; intuition discriminate.
  - exists "tmc1". now left.
Defined.

Lemma queryGeoServer_request_witness :
  (allCoordinatesPresent scenarioB /\
   distinctKeys (selectedProducts scenarioB) /\
   (exists id, In (id, true) (selectedProducts scenarioB))) /\
  typeNames scenarioB = "tmc1:datapoints,ohrc:datapoints" /\
  wktPolygon scenarioB
    = "POLYGON((2.33 48.8, 2.35 48.8, 2.35 48.9, 2.33 48.9, 2.33 48.8))" /\
  queryGeoServer (mkWorld scenarioB []) =
    mkWorld scenarioB
      [Fetch ("http://your-geoserver-url/geoserver/wfs"
              ++ "?service=WFS&version=1.1.0&request=GetFeature"
              ++ "&typeName=tmc1:datapoints,ohrc:datapoints"
              ++ "&cql_filter=INTERSECTS(geom%2C%20POLYGON((2.33%2048.8%2C%20"
              ++ "2.35%2048.8%2C%202.35%2048.9%2C%202.33%2048.9%2C%20"
              ++ "2.33%2048.8)))"
              ++ "&outputFormat=application/json")].
Proof.
  split; [exact scenarioB_ready|].
  split; [reflexivity|]. split; [reflexivity|].
  exact (queryGeoServer_request (mkWorld scenarioB [])
           (proj1 scenarioB_ready)
           (proj1 (proj2 scenarioB_ready))
           (proj2 (proj2 scenarioB_ready))).
Defined.

(** ** The initial selection *)

(** A flag that was set, at the start or by a toggle, and is found not set
    was cleared by a toggle. *)
Lemma run_selected_cleared events : forall w id,
  get id (selectedProducts (state w)) = Some true \/
    In (ProductChange id true) events ->
  get id (selectedProducts (state (run events w))) <> Some true ->
  In (ProductChange id false) events.
Proof.
  induction events as [|e events IH]; intros w id Hset Hfinal.
  - destruct Hset as [Hset|[]]. contradiction.
  - change (run (e :: events) w) with (run events (step w e)) in Hfinal.
    destruct (get id (selectedProducts (state (step w e)))) as [[|]|] eqn:Hstep.
    + right. apply (IH (step w e) id); [now left | exact Hfinal].
    + rewrite step_selectedProducts in Hstep.
      destruct Hset as [Hset|[->|Hin]].
      * destruct e as [| changed checked | | | | | | |]; try congruence.
        rewrite get_set in Hstep.
        destruct (String.eqb id changed) eqn:E; [|congruence].
        apply String.eqb_eq in E. subst changed.
        injection Hstep as ->. now left.
      * rewrite get_set, String.eqb_refl in Hstep. discriminate Hstep.
      * right. apply (IH (step w e) id); [now right | exact Hfinal].
    + rewrite step_selectedProducts in Hstep.
      destruct Hset as [Hset|[->|Hin]].
      * destruct e as [| changed checked | | | | | | |]; try congruence.
        rewrite get_set in Hstep.
        destruct (String.eqb id changed); congruence.
      * rewrite get_set, String.eqb_refl in Hstep. discriminate Hstep.
      * right. apply (IH (step w e) id); [now right | exact Hfinal].
Qed.

Lemma products_alert_only_when_none w :
  effects (queryGeoServer w) = (effects w ++ [Alert productsAlert])%list ->
  selectedWorkspaces (state w) = [].
Proof.
  unfold queryGeoServer.
  destruct (_ || _).
  - simpl. intros H. apply app_inv_head in H. discriminate H.
  - destruct (selectedWorkspaces (state w)); [reflexivity|].
    simpl. intros H. apply app_inv_head in H. discriminate H.
Qed.

(** C9. The component starts with the four coordinate fields empty and the
    three products tmc1, tmc2 and ohrc selected.  Whatever happened since
    (any sequence of edits, toggles, drawing updates, queries and settled
    requests), if a query is refused with the products message, then every
    product that was selected, at the start or by a toggle, was deselected by
    a toggle of its checkbox: in particular each of tmc1, tmc2 and ohrc. *)
Theorem products_alert_after_deselection :
  (top initialState = "" /\ bottom initialState = "" /\
   left initialState = "" /\ right initialState = "" /\
   selectedProducts initialState = [("tmc1", true); ("tmc2", true); ("ohrc", true)] /\
   selectedWorkspaces initialState = ["tmc1"; "tmc2"; "ohrc"]) /\
  forall events : list Event,
    effects (queryGeoServer (run events initialWorld)) =
      (effects (run events initialWorld) ++ [Alert productsAlert])%list ->
    (forall id,
        get id (selectedProducts initialState) = Some true \/
          In (ProductChange id true) events ->
        In (ProductChange id false) events) /\
    In (ProductChange "tmc1" false) events /\
    In (ProductChange "tmc2" false) events /\
    In (ProductChange "ohrc" false) events.
Proof.
  split; [repeat split|].
  intros events Halert.
  apply products_alert_only_when_none in Halert.
  assert (Hcleared : forall id,
             get id (selectedProducts initialState) = Some true \/
               In (ProductChange id true) events ->
             In (ProductChange id false) events).
  { intros id Hset.
    apply (run_selected_cleared events initialWorld id Hset).
    exact (proj1 (selectedWorkspaces_nil _) Halert id). }
  split; [exact Hcleared|].
  repeat split; apply Hcleared; left; reflexivity.
Qed.

Lemma products_alert_after_deselection_witness :
  effects (queryGeoServer (run deselectEverything initialWorld)) =
    (effects (run deselectEverything initialWorld) ++ [Alert productsAlert])%list /\
  In (ProductChange "tmc1" false) deselectEverything /\
  In (ProductChange "tmc2" false) deselectEverything /\
  In (ProductChange "ohrc" false) deselectEverything.
Proof.
  split.
  - reflexivity.
  - exact (proj2 (proj2 products_alert_after_deselection deselectEverything eq_refl)).
Defined.

(** ** The order on numbers *)

Ltac number_cases :=
  repeat match goal with
         | x : number |- _ => destruct x as [|[|]|?]
         end;
  simpl in *; try discriminate; try reflexivity; try lia.

Lemma num_leb_refl x : properNumber x -> num_leb x x = true.
Proof. unfold properNumber. number_cases. Qed.

Lemma num_leb_trans x y z :
  num_leb x y = true -> num_leb y z = true -> num_leb x z = true.
Proof. number_cases. Qed.

Lemma num_leb_antisym x y :
  num_leb x y = true -> num_leb y x = true -> x = y.
Proof. number_cases. intros; f_equal; lia. Qed.

Lemma num_ltb_leb x y : num_ltb x y = true -> num_leb x y = true.
Proof. number_cases. Qed.

Lemma num_ltb_false x y :
  properNumber x -> properNumber y -> num_ltb x y = false -> num_leb y x = true.
Proof. unfold properNumber. number_cases. Qed.

Lemma num_leb_proper x y : num_leb x y = true -> properNumber x /\ properNumber y.
Proof. unfold properNumber. number_cases; intros; split; reflexivity. Qed.

(** ** Math.max and Math.min *)

Lemma max_from_spec values : forall highest,
  properNumber highest -> Forall properNumber values ->
  let m := Math.max_from highest values in
  (m = highest \/ In m values) /\
  num_leb highest m = true /\
  (forall x, In x values -> num_leb x m = true).
Proof.
  induction values as [|v values IH]; intros highest Hh Hall m.
  - simpl in m. subst m. split; [now left|]. split; [now apply num_leb_refl | intros x []].
  - inversion Hall as [|? ? Hv Hall']; subst.
    assert (Hm : m = Math.max_from (if num_ltb highest v then v else highest) values).
    { subst m. simpl. destruct v; [discriminate Hv | reflexivity | reflexivity]. }
    destruct (num_ltb highest v) eqn:Hlt.
    + destruct (IH v Hv Hall') as (Hin & Hle & Hall'').
      rewrite <- Hm in Hin, Hle, Hall''.
      split; [right; destruct Hin as [->|Hin]; [now left | now right]|].
      split; [apply num_leb_trans with v; [now apply num_ltb_leb | exact Hle]|].
      intros x [<-|Hx]; [exact Hle | now apply Hall''].
    + destruct (IH highest Hh Hall') as (Hin & Hle & Hall'').
      rewrite <- Hm in Hin, Hle, Hall''.
      split; [destruct Hin as [->|Hin]; [now left | right; now right]|].
      split; [exact Hle|].
      intros x [<-|Hx]; [|now apply Hall''].
      apply num_leb_trans with highest; [now apply num_ltb_false | exact Hle].
Qed.

Lemma min_from_spec values : forall lowest,
  properNumber lowest -> Forall properNumber values ->
  let m := Math.min_from lowest values in
  (m = lowest \/ In m values) /\
  num_leb m lowest = true /\
  (forall x, In x values -> num_leb m x = true).
Proof.
  induction values as [|v values IH]; intros lowest Hl Hall m.
  - simpl in m. subst m. split; [now left|]. split; [now apply num_leb_refl | intros x []].
  - inversion Hall as [|? ? Hv Hall']; subst.
    assert (Hm : m = Math.min_from (if num_ltb v lowest then v else lowest) values).
    { subst m. simpl. destruct v; [discriminate Hv | reflexivity | reflexivity]. }
    destruct (num_ltb v lowest) eqn:Hlt.
    + destruct (IH v Hv Hall') as (Hin & Hle & Hall'').
      rewrite <- Hm in Hin, Hle, Hall''.
      split; [right; destruct Hin as [->|Hin]; [now left | now right]|].
      split; [apply num_leb_trans with v; [exact Hle | now apply num_ltb_leb]|].
      intros x [<-|Hx]; [exact Hle | now apply Hall''].
    + destruct (IH lowest Hl Hall') as (Hin & Hle & Hall'').
      rewrite <- Hm in Hin, Hle, Hall''.
      split; [destruct Hin as [->|Hin]; [now left | right; now right]|].
      split; [exact Hle|].
      intros x [<-|Hx]; [|now apply Hall''].
      apply num_leb_trans with lowest; [exact Hle | now apply num_ltb_false].
Qed.

(** On a non-empty list of proper numbers [Math.max] is the maximum. *)
Lemma max_isMaximumOf values :
  values <> [] -> Forall properNumber values -> isMaximumOf (Math.max values) values.
Proof.
  intros Hne Hall.
  destruct (max_from_spec values (Infinity true) eq_refl Hall) as (Hin & _ & Hle).
  fold (Math.max values) in Hin, Hle.
  split; [|exact Hle].
  destruct Hin as [Heq|Hin]; [|exact Hin].
  destruct values as [|v values]; [contradiction|].
  assert (Hv : num_leb v (Math.max (v :: values)) = true) by (apply Hle; now left).
  rewrite Heq in Hv |- *. left.
  apply num_leb_antisym; [exact Hv|].
  destruct v as [|[|]|]; try discriminate Hv; reflexivity.
Qed.

Lemma min_isMinimumOf values :
  values <> [] -> Forall properNumber values -> isMinimumOf (Math.min values) values.
Proof.
  intros Hne Hall.
  destruct (min_from_spec values (Infinity false) eq_refl Hall) as (Hin & _ & Hle).
  fold (Math.min values) in Hin, Hle.
  split; [|exact Hle].
  destruct Hin as [Heq|Hin]; [|exact Hin].
  destruct values as [|v values]; [contradiction|].
  assert (Hv : num_leb (Math.min (v :: values)) v = true) by (apply Hle; now left).
  rewrite Heq in Hv |- *. left.
  apply num_leb_antisym; [|exact Hv].
  destruct v as [|[|]|]; try discriminate Hv; reflexivity.
Qed.

Lemma isMaximumOf_unique m m' values values' :
  Permutation values values' ->
  isMaximumOf m values -> isMaximumOf m' values' -> m = m'.
Proof.
  intros Hperm [Hin Hle] [Hin' Hle'].
  apply num_leb_antisym.
  - apply Hle'. now apply (Permutation_in _ Hperm).
  - apply Hle. now apply (Permutation_in _ (Permutation_sym Hperm)).
Qed.

Lemma isMinimumOf_unique m m' values values' :
  Permutation values values' ->
  isMinimumOf m values -> isMinimumOf m' values' -> m = m'.
Proof.
  intros Hperm [Hin Hle] [Hin' Hle'].
  apply num_leb_antisym.
  - apply Hle. now apply (Permutation_in _ (Permutation_sym Hperm)).
  - apply Hle'. now apply (Permutation_in _ Hperm).
Qed.

(** A [NaN] among the arguments is the result of both. *)
Example max_min_NaN :
  Math.max [ofInteger 10; NaN; ofInteger 20] = NaN /\
  Math.min [ofInteger 10; NaN; ofInteger 20] = NaN.
Proof. split; reflexivity. Qed.

(** ** The bounding box of the drawn points *)

Lemma collect_positions points :
  collect (map Some points) = (map latitude points, map longitude points).
Proof.
  induction points as [|p points IH]; simpl; [reflexivity | now rewrite IH].
Qed.

Lemma proper_latitudes points :
  Forall properPosition points -> Forall properNumber (map latitude points).
Proof.
  intros H. apply Forall_map. revert H. apply Forall_impl. now intros p [Hlat _].
Qed.

Lemma proper_longitudes points :
  Forall properPosition points -> Forall properNumber (map longitude points).
Proof.
  intros H. apply Forall_map. revert H. apply Forall_impl. now intros p [_ Hlon].
Qed.

Lemma boundingBox_extremes points box :
  Forall properPosition points ->
  boundingBox (map latitude points) (map longitude points) = Some box ->
  isMaximumOf (boxTop box) (map latitude points) /\
  isMinimumOf (boxBottom box) (map latitude points) /\
  isMinimumOf (boxLeft box) (map longitude points) /\
  isMaximumOf (boxRight box) (map longitude points).
Proof.
  intros Hall Hbox.
  pose proof (proper_latitudes points Hall) as Hlats.
  pose proof (proper_longitudes points Hall) as Hlons.
  destruct points as [|p points]; [discriminate Hbox|].
  injection Hbox as <-.
  cbn [boxTop boxBottom boxLeft boxRight].
  repeat split;
    try (apply max_isMaximumOf; [discriminate | assumption]);
    try (apply min_isMinimumOf; [discriminate | assumption]).
Qed.

(** C2. Once the loop is closed, a drawing update with at least three points
    (each with a latitude and a longitude that are numbers) computes a box
    whose top is the greatest latitude, bottom the least latitude, left the
    least longitude and right the greatest longitude, so bottom <= top and
    left <= right; the box is the same for every reordering of the points,
    and it is what the update writes (printed) into the state. *)
Theorem onDrawingUpdated_bounding_box :
  forall (points : list Position) (w : World),
    (3 <= List.length points)%nat ->
    Forall properPosition points ->
    exists box : BoundingBox,
      boundingBox (map latitude points) (map longitude points) = Some box /\
      onDrawingUpdated true (map Some points) w =
        perform EndDrawing (setState (applyBoundingBox box) w) /\
      isMaximumOf (boxTop box) (map latitude points) /\
      isMinimumOf (boxBottom box) (map latitude points) /\
      isMinimumOf (boxLeft box) (map longitude points) /\
      isMaximumOf (boxRight box) (map longitude points) /\
      num_leb (boxBottom box) (boxTop box) = true /\
      num_leb (boxLeft box) (boxRight box) = true /\
      (forall points', Permutation points points' ->
         boundingBox (map latitude points') (map longitude points') = Some box).
Proof.
  intros points w Hlen Hall.
  destruct (boundingBox (map latitude points) (map longitude points)) as [box|] eqn:Hbox;
    [|destruct points; [simpl in Hlen; lia | discriminate Hbox]].
  exists box. split; [reflexivity|].
  destruct (boundingBox_extremes points box Hall Hbox) as (Htop & Hbottom & Hleft & Hright).
  split.
  { unfold onDrawingUpdated. rewrite length_map.
    replace (3 <=? List.length points)%nat with true
      by (symmetry; now apply Nat.leb_le).
    simpl andb. cbv iota. now rewrite collect_positions, Hbox. }
  repeat (split; [assumption|]).
  split; [apply (proj2 Htop), (proj1 Hbottom)|].
  split; [apply (proj2 Hright), (proj1 Hleft)|].
  intros points' Hperm.
  assert (Hall' : Forall properPosition points').
  { apply Forall_forall. intros p Hp. rewrite Forall_forall in Hall.
    apply Hall. now apply (Permutation_in _ (Permutation_sym Hperm)). }
  destruct (boundingBox (map latitude points') (map longitude points')) as [box'|] eqn:Hbox'.
  - destruct (boundingBox_extremes points' box' Hall' Hbox')
      as (Htop' & Hbottom' & Hleft' & Hright').
    pose proof (Permutation_map latitude Hperm) as Hlats.
    pose proof (Permutation_map longitude Hperm) as Hlons.
    destruct box as [t b l r], box' as [t' b' l' r']; simpl in *.
    f_equal. f_equal.
    + symmetry. exact (isMaximumOf_unique _ _ _ _ Hlats Htop Htop').
    + symmetry. exact (isMinimumOf_unique _ _ _ _ Hlats Hbottom Hbottom').
    + symmetry. exact (isMinimumOf_unique _ _ _ _ Hlons Hleft Hleft').
    + symmetry. exact (isMaximumOf_unique _ _ _ _ Hlons Hright Hright').
  - apply Permutation_length in Hperm.
    destruct points'; [simpl in Hperm; lia | discriminate Hbox'].
Qed.

Lemma scenarioA_proper :
  (3 <= List.length scenarioA)%nat /\ Forall properPosition scenarioA.
Proof.
  split.
  - simpl. lia.
  - repeat constructor.
Defined.

Lemma onDrawingUpdated_bounding_box_witness :
  ((3 <= List.length scenarioA)%nat /\ Forall properPosition scenarioA) /\
  boundingBox (map latitude scenarioA) (map longitude scenarioA) =
    Some {| boxTop := ofInteger 20; boxBottom := ofInteger 10;
            boxLeft := ofInteger 10; boxRight := ofInteger 20 |} /\
  state (onDrawingUpdated true (map Some scenarioA) initialWorld) =
    {| top := "20.000000"; bottom := "10.000000";
       left := "10.000000"; right := "20.000000";
       selectedProducts := [("tmc1", true); ("tmc2", true); ("ohrc", true)];
       drawingMode := false |}.
Proof.
  split; [exact scenarioA_proper|].
  destruct (onDrawingUpdated_bounding_box scenarioA initialWorld
              (proj1 scenarioA_proper) (proj2 scenarioA_proper))
    as (box & Hbox & Hrun & _).
  split.
  - vm_compute. reflexivity.
  - rewrite Hrun. vm_compute in Hbox. injection Hbox as <-.
    vm_compute. reflexivity.
Defined.

(** ** Printing and reading digits *)

Lemma digitChar_isDigit d :
  0 <= d < 10 ->
  isDigit (digitChar d) = true /\
  Z.of_nat (nat_of_ascii (digitChar d) - 48) = d.
Proof.
  intros Hd. unfold isDigit, digitChar.
  assert (Hn : (Z.to_nat d < 10)%nat) by lia.
  rewrite nat_ascii_embedding by lia.
  split.
  - apply andb_true_intro. split; apply Nat.leb_le; lia.
  - lia.
Qed.

Lemma digitsValueFrom_app s1 s2 : forall acc,
  digitsValueFrom acc (s1 ++ s2) =
  match digitsValueFrom acc s1 with
  | Some v => digitsValueFrom v s2
  | None => None
  end.
Proof.
  induction s1 as [|c s1 IH]; intros acc; simpl; [reflexivity|].
  destruct (isDigit c); [apply IH | reflexivity].
Qed.

Lemma digitsValueFrom_shift s : forall acc,
  digitsValueFrom acc s =
  match digitsValueFrom 0 s with
  | Some v => Some (acc * 10 ^ Z.of_nat (String.length s) + v)
  | None => None
  end.
Proof.
  induction s as [|c s IH]; intros acc.
  - simpl. f_equal. lia.
  - cbn [digitsValueFrom String.length]. destruct (isDigit c); [|reflexivity].
    rewrite IH. rewrite (IH (10 * 0 + _)).
    destruct (digitsValueFrom 0 s) as [v|]; [|reflexivity].
    f_equal. rewrite Nat2Z.inj_succ, Z.pow_succ_r by lia. ring.
Qed.

Lemma digitsValueFrom_zeros k s : digitsValueFrom 0 (zeros k ++ s) = digitsValueFrom 0 s.
Proof. induction k as [|k IH]; simpl; [reflexivity | exact IH]. Qed.

Lemma length_zeros k : String.length (zeros k) = k.
Proof. induction k as [|k IH]; simpl; [reflexivity | now rewrite IH]. Qed.

(** The digits written for [n] read back as [n]. *)
Lemma digitsFuel_value fuel : forall n acc,
  0 <= n < 2 ^ Z.of_nat fuel -> (0 < fuel)%nat ->
  exists ds, digitsFuel fuel n acc = ds ++ acc /\
             ds <> "" /\ digitsValueFrom 0 ds = Some n.
Proof.
  induction fuel as [|fuel IH]; intros n acc Hn Hfuel; [lia|].
  cbn [digitsFuel].
  assert (Hmod : 0 <= n mod 10 < 10) by (apply Z.mod_pos_bound; lia).
  destruct (digitChar_isDigit (n mod 10) Hmod) as [Hdig Hval].
  destruct (n / 10 =? 0) eqn:Hq.
  - apply Z.eqb_eq in Hq.
    exists (String (digitChar (n mod 10)) ""). split; [reflexivity|].
    split; [discriminate|].
    cbn [digitsValueFrom]. rewrite Hdig, Hval. f_equal.
    rewrite (Z.div_mod n 10) at 2 by lia. lia.
  - apply Z.eqb_neq in Hq.
    assert (Hdiv : 0 <= n / 10 < 2 ^ Z.of_nat fuel).
    { split; [apply Z.div_pos; lia|].
      apply Z.div_lt_upper_bound; [lia|].
      rewrite Nat2Z.inj_succ, Z.pow_succ_r in Hn by lia. lia. }
    assert (Hpos : (0 < fuel)%nat).
    { destruct fuel; [|lia]. simpl in Hdiv. lia. }
    destruct (IH (n / 10) (String (digitChar (n mod 10)) acc) Hdiv Hpos)
      as (ds & Heq & Hne & Hds).
    exists (ds ++ String (digitChar (n mod 10)) ""). split; [|split].
    + rewrite Heq, append_assoc. reflexivity.
    + destruct ds; [contradiction | discriminate].
    + rewrite digitsValueFrom_app, Hds. cbn [digitsValueFrom]. rewrite Hdig, Hval. f_equal.
      rewrite (Z.div_mod n 10) at 3 by lia. lia.
Qed.

Lemma decimalDigits_value n :
  0 <= n -> decimalDigits n <> "" /\ digitsValueFrom 0 (decimalDigits n) = Some n.
Proof.
  intros Hn. unfold decimalDigits.
  destruct (digitsFuel_value (S (Z.to_nat (Z.log2 n))) n "") as (ds & Heq & Hne & Hds).
  - split; [exact Hn|].
    rewrite Nat2Z.inj_succ, Z2Nat.id by apply Z.log2_nonneg.
    destruct (Z.eq_dec n 0) as [->|Hnz]; [reflexivity|].
    apply Z.log2_spec. lia.
  - lia.
  - rewrite Heq, append_nil_r. now split.
Qed.

(** ** Substrings *)

Lemma substring_all s : substring 0 (String.length s) s = s.
Proof. induction s as [|c s IH]; simpl; [reflexivity | now rewrite IH]. Qed.

Lemma substring_split s : forall i j,
  (i + j = String.length s)%nat ->
  substring 0 i s ++ substring i j s = s /\
  String.length (substring 0 i s) = i /\
  String.length (substring i j s) = j.
Proof.
  induction s as [|c s IH]; intros i j Hlen; simpl in Hlen.
  - assert (i = 0%nat) by lia. assert (j = 0%nat) by lia. subst. now repeat split.
  - destruct i as [|i].
    + simpl in Hlen. subst j. cbn [substring]. rewrite substring_all.
      now repeat split.
    + destruct (IH i j) as (Happ & Hl1 & Hl2); [lia|].
      cbn [substring]. simpl. rewrite Happ, Hl1. now repeat split.
Qed.

Lemma splitAt_digits before after : forall acc v,
  digitsValueFrom acc before = Some v ->
  splitAt "." (before ++ String "." after) = Some (before, after).
Proof.
  induction before as [|c before IH]; intros acc v Hv; simpl; [reflexivity|].
  simpl in Hv. destruct (isDigit c) eqn:Hc; [|discriminate].
  destruct (Ascii.eqb c ".") eqn:Hdot.
  - apply Ascii.eqb_eq in Hdot. subst c. discriminate Hc.
  - now rewrite (IH _ _ Hv).
Qed.

(** ** toFixed(6) and the value it prints *)

Lemma fixedDigits_parts n :
  0 <= n ->
  exists whole decimals i f,
    fixedDigits n = whole ++ String "." decimals /\
    String.length decimals = 6%nat /\
    digitsValue whole = Some i /\
    digitsValueFrom 0 whole = Some i /\
    digitsValue decimals = Some f /\
    i * 10 ^ 6 + f = n.
Proof.
  intros Hn. unfold fixedDigits.
  set (m0 := if n =? 0 then "0" else decimalDigits n).
  assert (Hm0 : m0 <> "" /\ digitsValueFrom 0 m0 = Some n).
  { subst m0. destruct (n =? 0) eqn:Hz.
    - apply Z.eqb_eq in Hz. subst n. split; [discriminate | reflexivity].
    - now apply decimalDigits_value. }
  destruct Hm0 as [Hne Hval].
  set (m := if (String.length m0 <=? fractionDigits)%nat
            then zeros (fractionDigits + 1 - String.length m0) ++ m0 else m0).
  assert (Hm : (fractionDigits < String.length m)%nat /\ digitsValueFrom 0 m = Some n).
  { subst m. destruct (String.length m0 <=? fractionDigits)%nat eqn:Hk.
    - apply Nat.leb_le in Hk. rewrite length_append, length_zeros, digitsValueFrom_zeros.
      split; [lia | exact Hval].
    - apply Nat.leb_gt in Hk. now split. }
  destruct Hm as [Hlen Hvalm].
  destruct (substring_split m (String.length m - fractionDigits) fractionDigits)
    as (Happ & Hl1 & Hl2); [lia|].
  set (whole := substring 0 (String.length m - fractionDigits) m) in *.
  set (decimals := substring (String.length m - fractionDigits) fractionDigits m) in *.
  rewrite <- Happ, digitsValueFrom_app in Hvalm.
  destruct (digitsValueFrom 0 whole) as [i|] eqn:Hi; [|discriminate].
  rewrite digitsValueFrom_shift in Hvalm.
  destruct (digitsValueFrom 0 decimals) as [f|] eqn:Hf; [|discriminate].
  injection Hvalm as Hsum. rewrite Hl2 in Hsum.
  exists whole, decimals, i, f.
  split; [reflexivity|]. split; [exact Hl2|].
  repeat split; try assumption.
  - unfold digitsValue. clearbody whole.
    destruct whole; [simpl in Hl1; unfold fractionDigits in *; lia | exact Hi].
  - unfold digitsValue. clearbody decimals.
    destruct decimals; [discriminate Hl2 | exact Hf].
Qed.

Lemma readUnsigned_fixedDigits negative n :
  0 <= n ->
  readUnsigned negative (fixedDigits n) =
  Some ((if negative then - n else n) # 1000000).
Proof.
  intros Hn.
  destruct (fixedDigits_parts n Hn) as (whole & decimals & i & f & -> & Hlen & Hi & Hi0 & Hf & Hsum).
  unfold readUnsigned.
  rewrite (splitAt_digits whole decimals 0 i Hi0), Hi, Hf, Hlen.
  change (Z.of_nat 6) with 6. rewrite Hsum. reflexivity.
Qed.

Lemma fixedDigits_first n :
  0 <= n -> exists c rest, fixedDigits n = String c rest /\ isDigit c = true.
Proof.
  intros Hn.
  destruct (fixedDigits_parts n Hn) as (whole & decimals & i & f & -> & _ & Hi & Hi0 & _).
  destruct whole as [|c whole]; [discriminate Hi|].
  exists c, (whole ++ String "." decimals). split; [reflexivity|].
  simpl in Hi0. now destruct (isDigit c).
Qed.

Lemma readDecimal_fixedDigits (negative : bool) n :
  0 <= n ->
  readDecimal ((if negative then "-" else "") ++ fixedDigits n) =
  Some ((if negative then - n else n) # 1000000).
Proof.
  intros Hn. destruct negative.
  - change ("-" ++ fixedDigits n) with (String "-" (fixedDigits n)).
    cbn [readDecimal]. rewrite Ascii.eqb_refl. now apply readUnsigned_fixedDigits.
  - change ("" ++ fixedDigits n) with (fixedDigits n).
    destruct (fixedDigits_first n Hn) as (c & rest & Heq & Hc).
    rewrite <- (readUnsigned_fixedDigits false n Hn), Heq.
    cbn [readDecimal].
    destruct (Ascii.eqb c "-") eqn:Hminus; [|reflexivity].
    apply Ascii.eqb_eq in Hminus. subst c. discriminate Hc.
Qed.

(** The integer kept by [toFixed(6)] is the nearest to [a * 10^6 / P], the
    larger when two are as near. *)
Lemma scaledNearest_bounds (P a : Z) :
  0 < P -> 0 <= a ->
  let n := (2 * a * 10 ^ 6 + P) / (2 * P) in
  0 <= n /\
  2 * Z.abs (n * P - a * 10 ^ 6) <= P /\
  (2 * Z.abs (n * P - a * 10 ^ 6) = P -> a * 10 ^ 6 < n * P).
Proof.
  intros HP Ha n.
  change (10 ^ 6) with 1000000 in *.
  pose proof (Z.div_mod (2 * a * 1000000 + P) (2 * P)) as Hdm.
  pose proof (Z.mod_pos_bound (2 * a * 1000000 + P) (2 * P)) as Hr.
  fold n in Hdm.
  set (r := (2 * a * 1000000 + P) mod (2 * P)) in *.
  assert (Hn : 0 <= n) by (apply Z.div_pos; lia).
  split; [exact Hn|]. split; [|intros Htie]; lia.
Qed.

Lemma unit_power : Z.pos (2 ^ 1074)%positive = 2 ^ unit_exponent.
Proof. now rewrite Pos2Z.inj_pow. Qed.

Lemma toFixed6_rounds u :
  fixedRange (Finite u) = true ->
  roundedToSix (toFixed6 (Finite u)) (Finite u).
Proof.
  intros Hrange. cbn [fixedRange] in Hrange. apply Z.ltb_lt in Hrange.
  set (n0 := scaledNearest (Z.abs u)).
  exists u, (if u <? 0 then - n0 else n0).
  split; [reflexivity|].
  assert (Htext : toFixed6 (Finite u) = (if u <? 0 then "-" else "") ++ fixedDigits n0).
  { cbn [toFixed6].
    replace (10 ^ 21 * 2 ^ unit_exponent <=? Z.abs u) with false
      by (symmetry; apply Z.leb_gt; exact Hrange).
    reflexivity. }
  pose proof (Z.pow_pos_nonneg 2 unit_exponent ltac:(lia) ltac:(unfold unit_exponent; lia)) as HP.
  destruct (scaledNearest_bounds (2 ^ unit_exponent) (Z.abs u) HP (Z.abs_nonneg u))
    as (Hn0 & Hnear & Htie).
  assert (Hn0' : (2 * Z.abs u * 10 ^ 6 + 2 ^ unit_exponent) / (2 * 2 ^ unit_exponent) = n0).
  { subst n0. unfold scaledNearest.
    rewrite Z.pow_add_r by (unfold unit_exponent; lia).
    change (2 ^ 1) with 2. now rewrite (Z.mul_comm (2 ^ unit_exponent) 2). }
  rewrite Hn0' in Hn0, Hnear, Htie.
  split.
  { rewrite Htext.
    rewrite (readDecimal_fixedDigits (u <? 0) n0 Hn0). now destruct (u <? 0). }
  unfold Qle, Qlt, Qeq, Qabs, Qminus, Qplus, Qopp, valueQ.
  cbn [Qnum Qden].
  rewrite Pos2Z.inj_mul, unit_power.
  change (10 ^ 6) with 1000000 in *.
  clearbody n0. generalize dependent (2 ^ unit_exponent). intros P Hrange HP Hnear Htie.
  destruct (u <? 0) eqn:Hu; [apply Z.ltb_lt in Hu | apply Z.ltb_ge in Hu]; split; lia.
Qed.

(** Outside that range [toFixed(6)] does not write fixed notation. *)
Example toFixed6_outside_range :
  toFixed6 NaN = "NaN" /\
  toFixed6 (Infinity false) = "Infinity" /\
  toFixed6 (Infinity true) = "-Infinity" /\
  toFixed6 (ofInteger (10 ^ 21)) = "1e+21" /\
  toFixed6 (ofInteger (- 2 ^ 70)) = "-1.1805916207174113e+21".
Proof. repeat split; vm_compute; reflexivity. Qed.

(** C7. After a bounding box whose four bounds are finite and of magnitude
    below 10^21 (as every bound in degrees is) has been applied, each
    coordinate field is decimal text with six decimals that reads back as the
    corresponding bound rounded to six decimals. *)
Theorem applyBoundingBox_reads_back :
  forall (box : BoundingBox) (s : State),
    fixedRange (boxTop box) = true ->
    fixedRange (boxBottom box) = true ->
    fixedRange (boxLeft box) = true ->
    fixedRange (boxRight box) = true ->
    roundedToSix (top (applyBoundingBox box s)) (boxTop box) /\
    roundedToSix (bottom (applyBoundingBox box s)) (boxBottom box) /\
    roundedToSix (left (applyBoundingBox box s)) (boxLeft box) /\
    roundedToSix (right (applyBoundingBox box s)) (boxRight box).
Proof.
  intros [[|?|t] [|?|b] [|?|l] [|?|r]] s Ht Hb Hl Hr; try discriminate.
  cbn [applyBoundingBox top bottom left right boxTop boxBottom boxLeft boxRight].
  repeat split; now apply toFixed6_rounds.
Qed.

Lemma applyBoundingBox_reads_back_witness :
  (fixedRange (boxTop sampleBox) = true /\ fixedRange (boxBottom sampleBox) = true /\
   fixedRange (boxLeft sampleBox) = true /\ fixedRange (boxRight sampleBox) = true) /\
  roundedToSix "0.007813" (boxTop sampleBox) /\
  roundedToSix "-0.007813" (boxBottom sampleBox) /\
  roundedToSix "0.100000" (boxLeft sampleBox) /\
  roundedToSix "20.000000" (boxRight sampleBox).
Proof.
  split.
  - repeat split.
  - exact (applyBoundingBox_reads_back sampleBox initialState
             eq_refl eq_refl eq_refl eq_refl).
Defined.

(** * Further properties *)

(** ** When a drawing update acts *)


(** ** What toFixed(6) writes *)

Lemma append_nonempty_r s1 s2 : s2 <> "" -> s1 ++ s2 <> "".
Proof. destruct s1; simpl; [tauto | discriminate]. Qed.

Lemma fixedDigits_nonempty n : fixedDigits n <> "".
Proof.
  unfold fixedDigits. apply append_nonempty_r. discriminate.
Qed.

Lemma Number_toString_large_nonempty x : Number_toString_large x <> "".
Proof.
  unfold Number_toString_large.
  destruct (shortestFrom x 17 1) as [s k].
  destruct (stripTrailingZeros (decimalDigits s)) as [|d [|d' rest]]; discriminate.
Qed.

Lemma toFixed6_nonempty x : toFixed6 x <> "".
Proof.
  destruct x as [|[|]|u]; try discriminate.
  cbn [toFixed6].
  destruct (10 ^ 21 * 2 ^ unit_exponent <=? Z.abs u); apply append_nonempty_r.
  - apply Number_toString_large_nonempty.
  - apply fixedDigits_nonempty.
Qed.

Lemma applyBoundingBox_complete box s : ~ anyCoordinateEmpty (applyBoundingBox box s).
Proof.
  unfold anyCoordinateEmpty. cbn [applyBoundingBox top bottom left right].
  intros [H|[H|[H|H]]]; exact (toFixed6_nonempty _ H).
Qed.

(** After a drawing update that acted, whatever the points were, a query is
    never refused for missing coordinates: it is refused for the missing
    product selection or it issues the request. *)
Theorem drawn_box_passes_coordinate_check :
  forall (closeLoop : bool) (entities : list Entity) (w : World),
    onDrawingUpdated closeLoop entities w <> w ->
    let w' := onDrawingUpdated closeLoop entities w in
    ~ anyCoordinateEmpty (state w') /\
    (queryGeoServer w' = perform (Alert productsAlert) w' \/
     queryGeoServer w' = perform (Fetch (wfsUrl (state w'))) w').
Proof.
  intros closeLoop entities w Hacts w'.
  assert (Hc : ~ anyCoordinateEmpty (state w')).
  { subst w'. destruct (onDrawingUpdated_cases closeLoop entities w) as [Hsame|(box & _ & Heq)];
      [contradiction|].
    rewrite Heq. apply applyBoundingBox_complete. }
  split; [exact Hc|].
  rewrite (queryGeoServer_complete w' Hc).
  destruct (selectedWorkspaces (state w')); [now left | now right].
Qed.

Lemma drawn_box_passes_coordinate_check_witness :
  onDrawingUpdated true (map Some scenarioA) initialWorld <> initialWorld /\
  queryGeoServer (onDrawingUpdated true (map Some scenarioA) initialWorld) =
  perform
    (Fetch (wfsUrl (state (onDrawingUpdated true (map Some scenarioA) initialWorld))))
    (onDrawingUpdated true (map Some scenarioA) initialWorld).
Proof.
  assert (H : onDrawingUpdated true (map Some scenarioA) initialWorld <> initialWorld).
  { intros Heq. apply (f_equal effects) in Heq. vm_compute in Heq. discriminate Heq. }
  split; [exact H|].
  destruct (proj2 (drawn_box_passes_coordinate_check true (map Some scenarioA)
                     initialWorld H)) as [Halert|Hfetch].
  - apply (f_equal effects) in Halert. vm_compute in Halert. discriminate Halert.
  - exact Hfetch.
Defined.

(** ** A coordinate that is not a number *)

Lemma max_from_NaN values : forall highest,
  In NaN values -> Math.max_from highest values = NaN.
Proof.
  induction values as [|v values IH]; intros highest Hin; [destruct Hin|].
  destruct Hin as [->|Hin]; [reflexivity|].
  simpl. destruct v; [reflexivity | now apply IH | now apply IH].
Qed.

Lemma min_from_NaN values : forall lowest,
  In NaN values -> Math.min_from lowest values = NaN.
Proof.
  induction values as [|v values IH]; intros lowest Hin; [destruct Hin|].
  destruct Hin as [->|Hin]; [reflexivity|].
  simpl. destruct v; [reflexivity | now apply IH | now apply IH].
Qed.

(** When the latitude of one positioned entity is [NaN], an update that acts
    writes the text NaN into both the top and the bottom field, whatever the
    other latitudes are. *)
Theorem onDrawingUpdated_NaN_latitude :
  forall (entities : list Entity) (p : Position) (w : World),
    (3 <= List.length entities)%nat ->
    In (Some p) entities ->
    latitude p = NaN ->
    top (state (onDrawingUpdated true entities w)) = "NaN" /\
    bottom (state (onDrawingUpdated true entities w)) = "NaN".
Proof.
  intros entities p w Hlen Hp Hnan.
  rewrite (onDrawingUpdated_acts entities p w Hlen Hp).
  assert (Hin : In NaN (map latitude (positioned entities))).
  { rewrite <- Hnan. apply in_map. now apply positioned_In. }
  cbn [state applyBoundingBox top bottom boxOver boxTop boxBottom].
  unfold Math.max, Math.min. now rewrite max_from_NaN, min_from_NaN.
Qed.

Lemma onDrawingUpdated_NaN_latitude_witness :
  ((3 <= List.length [Some (mkPosition (ofInteger 10) (ofInteger 10));
                      Some (mkPosition NaN (ofInteger 20));
                      Some (mkPosition (ofInteger 20) (ofInteger 20))])%nat /\
   In (Some (mkPosition NaN (ofInteger 20)))
      [Some (mkPosition (ofInteger 10) (ofInteger 10));
       Some (mkPosition NaN (ofInteger 20));
       Some (mkPosition (ofInteger 20) (ofInteger 20))] /\
   latitude (mkPosition NaN (ofInteger 20)) = NaN) /\
  top (state (onDrawingUpdated true
                [Some (mkPosition (ofInteger 10) (ofInteger 10));
                 Some (mkPosition NaN (ofInteger 20));
                 Some (mkPosition (ofInteger 20) (ofInteger 20))] initialWorld)) = "NaN".
Proof.
  assert (Hlen : (3 <= List.length [Some (mkPosition (ofInteger 10) (ofInteger 10));
                                    Some (mkPosition NaN (ofInteger 20));
                                    Some (mkPosition (ofInteger 20) (ofInteger 20))])%nat)
    by (simpl; lia).
  assert (Hin : In (Some (mkPosition NaN (ofInteger 20)))
                   [Some (mkPosition (ofInteger 10) (ofInteger 10));
                    Some (mkPosition NaN (ofInteger 20));
                    Some (mkPosition (ofInteger 20) (ofInteger 20))])
    by (right; left; reflexivity).
  split; [repeat split; assumption|].
  exact (proj1 (onDrawingUpdated_NaN_latitude _ _ initialWorld Hlen Hin eq_refl)).
Defined.

(** ** More points, wider box *)

Lemma max_incl values values' :
  values <> [] -> incl values values' -> Forall properNumber values' ->
  num_leb (Math.max values) (Math.max values') = true.
Proof.
  intros Hne Hincl Hall'.
  assert (Hall : Forall properNumber values).
  { rewrite Forall_forall in *. intros x Hx. apply Hall', Hincl, Hx. }
  assert (Hne' : values' <> []).
  { destruct values as [|v values]; [contradiction|].
    intros ->. exact (Hincl v (or_introl eq_refl)). }
  destruct (max_isMaximumOf values Hne Hall) as [Hin _].
  destruct (max_isMaximumOf values' Hne' Hall') as [_ Hle'].
  apply Hle', Hincl, Hin.
Qed.

Lemma min_incl values values' :
  values <> [] -> incl values values' -> Forall properNumber values' ->
  num_leb (Math.min values') (Math.min values) = true.
Proof.
  intros Hne Hincl Hall'.
  assert (Hall : Forall properNumber values).
  { rewrite Forall_forall in *. intros x Hx. apply Hall', Hincl, Hx. }
  assert (Hne' : values' <> []).
  { destruct values as [|v values]; [contradiction|].
    intros ->. exact (Hincl v (or_introl eq_refl)). }
  destruct (min_isMinimumOf values Hne Hall) as [Hin _].
  destruct (min_isMinimumOf values' Hne' Hall') as [_ Hle'].
  apply Hle', Hincl, Hin.
Qed.

(** Drawing further points never shrinks the box: when every point drawn so
    far is still among the points (in any order, with any number of new
    ones), the new top and right are at least the old ones and the new
    bottom and left at most the old ones. *)
Theorem boxOver_widens :
  forall points points' : list Position,
    points <> [] ->
    incl points points' ->
    Forall properPosition points' ->
    num_leb (boxTop (boxOver points)) (boxTop (boxOver points')) = true /\
    num_leb (boxBottom (boxOver points')) (boxBottom (boxOver points)) = true /\
    num_leb (boxLeft (boxOver points')) (boxLeft (boxOver points)) = true /\
    num_leb (boxRight (boxOver points)) (boxRight (boxOver points')) = true.
Proof.
  intros points points' Hne Hincl Hall.
  assert (Hlat : incl (map latitude points) (map latitude points'))
    by now apply incl_map.
  assert (Hlon : incl (map longitude points) (map longitude points'))
    by now apply incl_map.
  assert (Hnelat : map latitude points <> []) by now destruct points.
  assert (Hnelon : map longitude points <> []) by now destruct points.
  cbn [boxOver boxTop boxBottom boxLeft boxRight].
  repeat split.
  - apply max_incl; [assumption..|now apply proper_latitudes].
  - apply min_incl; [assumption..|now apply proper_latitudes].
  - apply min_incl; [assumption..|now apply proper_longitudes].
  - apply max_incl; [assumption..|now apply proper_longitudes].
Qed.

Lemma boxOver_widens_witness :
  (scenarioA <> [] /\
   incl scenarioA (mkPosition (ofInteger 30) (ofInteger 5) :: scenarioA) /\
   Forall properPosition (mkPosition (ofInteger 30) (ofInteger 5) :: scenarioA)) /\
  num_leb (boxTop (boxOver scenarioA))
          (boxTop (boxOver (mkPosition (ofInteger 30) (ofInteger 5) :: scenarioA))) = true.
Proof.
  assert (H1 : scenarioA <> []) by discriminate.
  assert (H2 : incl scenarioA (mkPosition (ofInteger 30) (ofInteger 5) :: scenarioA))
    by (intros x Hx; now right).
  assert (H3 : Forall properPosition (mkPosition (ofInteger 30) (ofInteger 5) :: scenarioA))
    by (repeat constructor).
  split; [repeat split; assumption|].
  exact (proj1 (boxOver_widens _ _ H1 H2 H3)).
Defined.

(** ** Rounding keeps the order *)

Lemma toFixed6_readsMicro u :
  fixedRange (Finite u) = true -> readsMicro (toFixed6 (Finite u)) (microOf u).
Proof.
  intros Hrange. cbn [fixedRange] in Hrange. apply Z.ltb_lt in Hrange.
  unfold readsMicro, microOf. cbn [toFixed6].
  replace (10 ^ 21 * 2 ^ unit_exponent <=? Z.abs u) with false
    by (symmetry; apply Z.leb_gt; exact Hrange).
  assert (Hn : 0 <= scaledNearest (Z.abs u)).
  { unfold scaledNearest. apply Z.div_pos.
    - pose proof (Z.abs_nonneg u).
      pose proof (Z.pow_nonneg 2 unit_exponent ltac:(lia)). lia.
    - apply Z.pow_pos_nonneg; [lia | unfold unit_exponent; lia]. }
  rewrite (readDecimal_fixedDigits (u <? 0) _ Hn). now destruct (u <? 0).
Qed.

Lemma scaledNearest_monotone a b :
  0 <= a <= b -> 0 <= scaledNearest a <= scaledNearest b.
Proof.
  intros Hab. unfold scaledNearest.
  assert (HP : 0 < 2 ^ (unit_exponent + 1))
    by (apply Z.pow_pos_nonneg; [lia | unfold unit_exponent; lia]).
  pose proof (Z.pow_nonneg 2 unit_exponent ltac:(lia)) as HP'.
  change (10 ^ 6) with 1000000.
  split.
  - apply Z.div_pos; lia.
  - apply Z.div_le_mono; lia.
Qed.

Lemma microOf_monotone u v : u <= v -> microOf u <= microOf v.
Proof.
  intros Huv. unfold microOf.
  destruct (u <? 0) eqn:Hu; destruct (v <? 0) eqn:Hv;
    try apply Z.ltb_lt in Hu; try apply Z.ltb_ge in Hu;
    try apply Z.ltb_lt in Hv; try apply Z.ltb_ge in Hv.
  - pose proof (scaledNearest_monotone (Z.abs v) (Z.abs u) ltac:(lia)). lia.
  - pose proof (scaledNearest_monotone 0 (Z.abs u) ltac:(lia)).
    pose proof (scaledNearest_monotone 0 (Z.abs v) ltac:(lia)). lia.
  - lia.
  - pose proof (scaledNearest_monotone (Z.abs u) (Z.abs v) ltac:(lia)). lia.
Qed.

Lemma toFixed6_monotone x y :
  fixedRange x = true -> fixedRange y = true -> num_leb x y = true ->
  exists nx ny,
    readsMicro (toFixed6 x) nx /\ readsMicro (toFixed6 y) ny /\ nx <= ny.
Proof.
  destruct x as [|?|u]; try discriminate. destruct y as [|?|v]; try discriminate.
  intros Hx Hy Hle. cbn [num_leb] in Hle. apply Z.leb_le in Hle.
  exists (microOf u), (microOf v).
  split; [now apply toFixed6_readsMicro|].
  split; [now apply toFixed6_readsMicro | now apply microOf_monotone].
Qed.

Lemma fixedRange_proper x : fixedRange x = true -> properNumber x.
Proof. now destruct x. Qed.

Lemma positioned_map_Some points : positioned (map Some points) = points.
Proof. induction points as [|p points IH]; simpl; [reflexivity | now rewrite IH]. Qed.

(** The box written by a drawing update is not turned over by the rounding:
    for at least three points with coordinates in the fixed-notation range,
    the bottom field reads as a value no greater than the top field, and the
    left field as a value no greater than the right field. *)
Theorem written_box_ordered :
  forall (points : list Position) (w : World),
    (3 <= List.length points)%nat ->
    Forall fixedPosition points ->
    let s' := state (onDrawingUpdated true (map Some points) w) in
    exists nb nt nl nr : Z,
      readsMicro (bottom s') nb /\ readsMicro (top s') nt /\
      readsMicro (left s') nl /\ readsMicro (right s') nr /\
      nb <= nt /\ nl <= nr.
Proof.
  intros points w Hlen Hall.
  destruct points as [|p0 rest] eqn:Hpts; [simpl in Hlen; lia|]. rewrite <- Hpts in *.
  intros s'.
  assert (Hs' : s' = applyBoundingBox (boxOver points) (state w)).
  { subst s'. rewrite (onDrawingUpdated_acts (map Some points) p0 w).
    - now rewrite positioned_map_Some.
    - now rewrite length_map.
    - rewrite Hpts. now left. }
  assert (Hproper : Forall properPosition points).
  { revert Hall. apply Forall_impl. intros p [Hlat Hlon].
    split; now apply fixedRange_proper. }
  assert (Hne_lat : map latitude points <> []) by (rewrite Hpts; discriminate).
  assert (Hne_lon : map longitude points <> []) by (rewrite Hpts; discriminate).
  destruct (max_isMaximumOf _ Hne_lat (proper_latitudes _ Hproper)) as [Htin Htle].
  destruct (min_isMinimumOf _ Hne_lat (proper_latitudes _ Hproper)) as [Hbin Hble].
  destruct (max_isMaximumOf _ Hne_lon (proper_longitudes _ Hproper)) as [Hrin Hrle].
  destruct (min_isMinimumOf _ Hne_lon (proper_longitudes _ Hproper)) as [Hlin Hlle].
  assert (Hlatfix : forall x, In x (map latitude points) -> fixedRange x = true).
  { intros x Hx. apply in_map_iff in Hx. destruct Hx as (p & <- & Hp).
    rewrite Forall_forall in Hall. exact (proj1 (Hall p Hp)). }
  assert (Hlonfix : forall x, In x (map longitude points) -> fixedRange x = true).
  { intros x Hx. apply in_map_iff in Hx. destruct Hx as (p & <- & Hp).
    rewrite Forall_forall in Hall. exact (proj2 (Hall p Hp)). }
  destruct (toFixed6_monotone _ _ (Hlatfix _ Hbin) (Hlatfix _ Htin) (Htle _ Hbin))
    as (nb & nt & Hnb & Hnt & Hbt).
  destruct (toFixed6_monotone _ _ (Hlonfix _ Hlin) (Hlonfix _ Hrin) (Hrle _ Hlin))
    as (nl & nr & Hnl & Hnr & Hlr).
  exists nb, nt, nl, nr. rewrite Hs'.
  cbn [applyBoundingBox top bottom left right boxOver boxTop boxBottom boxLeft boxRight].
  repeat split; assumption.
Qed.

Lemma written_box_ordered_witness :
  ((3 <= List.length scenarioA)%nat /\ Forall fixedPosition scenarioA) /\
  exists nb nt nl nr : Z,
    readsMicro (bottom (state (onDrawingUpdated true (map Some scenarioA) initialWorld))) nb /\
    readsMicro (top (state (onDrawingUpdated true (map Some scenarioA) initialWorld))) nt /\
    readsMicro (left (state (onDrawingUpdated true (map Some scenarioA) initialWorld))) nl /\
    readsMicro (right (state (onDrawingUpdated true (map Some scenarioA) initialWorld))) nr /\
    nb <= nt /\ nl <= nr.
Proof.
  assert (H1 : (3 <= List.length scenarioA)%nat) by (simpl; lia).
  assert (H2 : Forall fixedPosition scenarioA) by (repeat constructor).
  split; [split; assumption|].
  exact (written_box_ordered scenarioA initialWorld H1 H2).
Defined.

(** ** Small negative values *)

(** A negative number nearer to zero than half of 10^-6 is written with its
    sign in front of zero. *)
Theorem toFixed6_negative_zero :
  forall u : Z,
    u < 0 ->
    2 * (- u) * 10 ^ 6 < 2 ^ unit_exponent ->
    toFixed6 (Finite u) = "-0.000000".
Proof.
  intros u Hneg Hsmall.
  pose proof (Z.pow_pos_nonneg 2 unit_exponent ltac:(lia) ltac:(unfold unit_exponent; lia)) as HP.
  cbn [toFixed6].
  replace (u <? 0) with true by (symmetry; now apply Z.ltb_lt).
  replace (Z.abs u) with (- u) by lia.
  change (10 ^ 6) with 1000000 in Hsmall. change (10 ^ 21) with 1000000000000000000000.
  replace (1000000000000000000000 * 2 ^ unit_exponent <=? - u) with false
    by (symmetry; apply Z.leb_gt; lia).
  replace (scaledNearest (- u)) with 0; [reflexivity|].
  symmetry. unfold scaledNearest. change (10 ^ 6) with 1000000.
  apply Z.div_small.
  rewrite Z.pow_add_r by (unfold unit_exponent; lia). change (2 ^ 1) with 2. lia.
Qed.

Lemma toFixed6_negative_zero_witness :
  (-1 < 0 /\ 2 * (- (-1)) * 10 ^ 6 < 2 ^ unit_exponent) /\
  toFixed6 (ofBinary (-1) (-1074)) = "-0.000000".
Proof.
  assert (H1 : -1 < 0) by reflexivity.
  assert (H2 : 2 * (- (-1)) * 10 ^ 6 < 2 ^ unit_exponent) by reflexivity.
  split; [split; assumption|].
  exact (toFixed6_negative_zero (-1) H1 H2).
Defined.

(** ** When a request is issued *)

Lemma selectedWorkspaces_cons s :
  selectedWorkspaces s <> [] <->
  exists id, get id (selectedProducts s) = Some true.
Proof.
  split.
  - intros Hne. destruct (selectedWorkspaces s) as [|k rest] eqn:Hsel; [contradiction|].
    assert (Hk : In k (selectedWorkspaces s)) by (rewrite Hsel; now left).
    rewrite selectedWorkspaces_unfold in Hk. apply filter_In in Hk.
    destruct Hk as [_ Hk]. unfold selectedFlag in Hk.
    exists k. destruct (get k (selectedProducts s)) as [[|]|]; try discriminate. reflexivity.
  - intros [id Hid] Hnil.
    exact (proj1 (selectedWorkspaces_nil s) Hnil id Hid).
Qed.

Lemma anyCoordinateEmpty_dec s : anyCoordinateEmpty s \/ ~ anyCoordinateEmpty s.
Proof.
  rewrite <- coordinates_guard. destruct (_ || _); [now left | right; discriminate].
Qed.

Lemma allCoordinatesPresent_iff s : allCoordinatesPresent s <-> ~ anyCoordinateEmpty s.
Proof.
  unfold anyCoordinateEmpty, allCoordinatesPresent.
  destruct (top s), (bottom s), (left s), (right s);
    split; intros H; try tauto;
    try (repeat split; discriminate);
    try (intros [H'|[H'|[H'|H']]]; discriminate H').
Qed.

Lemma perform_inj e1 e2 w : perform e1 w = perform e2 w -> e1 = e2.
Proof.
  intros Heq. apply (f_equal effects) in Heq. simpl in Heq.
  apply app_inv_head in Heq. now injection Heq.
Qed.

(** A press of the query button issues the request exactly when the four
    coordinate fields are non-empty and some product id is selected; in no
    case does it change the state. *)
Theorem queryGeoServer_fetch_iff :
  forall w : World,
    state (queryGeoServer w) = state w /\
    (queryGeoServer w = perform (Fetch (wfsUrl (state w))) w <->
     allCoordinatesPresent (state w) /\
     exists id, get id (selectedProducts (state w)) = Some true).
Proof.
  intros w. rewrite allCoordinatesPresent_iff.
  destruct (anyCoordinateEmpty_dec (state w)) as [Hc|Hc].
  - rewrite (queryGeoServer_incomplete w Hc). split; [reflexivity|].
    split; [intros Heq; apply perform_inj in Heq; discriminate Heq | tauto].
  - rewrite (queryGeoServer_complete w Hc).
    rewrite <- selectedWorkspaces_cons.
    destruct (selectedWorkspaces (state w)) as [|k rest]; (split; [reflexivity|]).
    + split; [intros Heq; apply perform_inj in Heq; discriminate Heq|].
      intros [_ Hne]. now elim Hne.
    + split; [intros _ | reflexivity].
      split; [exact Hc | discriminate].
Qed.




(** ** Toggling products *)

Lemma selectedWorkspaces_In s k :
  In k (selectedWorkspaces s) <-> get k (selectedProducts s) = Some true.
Proof.
  rewrite selectedWorkspaces_unfold, filter_In. unfold selectedFlag. split.
  - intros [_ Hk]. destruct (get k (selectedProducts s)) as [[|]|]; try discriminate.
    reflexivity.
  - intros Hk. split; [apply get_In; congruence | now rewrite Hk].
Qed.

(** After a toggle the selected ids are the ones selected before, with the
    toggled id among them exactly when its box was ticked: no other id
    enters or leaves the request. *)
Theorem handleProductChange_selection :
  forall (id : string) (checked : bool) (w : World) (k : string),
    In k (selectedWorkspaces (state (handleProductChange id checked w))) <->
    (k = id /\ checked = true) \/
    (k <> id /\ In k (selectedWorkspaces (state w))).
Proof.
  intros id checked w k. rewrite !selectedWorkspaces_In.
  cbn [handleProductChange setState state selectedProducts].
  rewrite get_set.
  destruct (String.eqb k id) eqn:E.
  - apply String.eqb_eq in E. subst k. split.
    + intros H. left. split; [reflexivity | congruence].
    + intros [[_ ->]|[Hne _]]; [reflexivity | now elim Hne].
  - apply String.eqb_neq in E. split.
    + intros H. right. now split.
    + intros [[Heq _]|[_ H]]; [contradiction | exact H].
Qed.

Section SetTwice.
Context {V : Type}.
Implicit Types (o : JsObject V) (k : string) (a b : V).

Lemma replace_replace k a b o : replace k b (replace k a o) = replace k b o.
Proof.
  induction o as [|[k0 v0] o IH]; simpl; [reflexivity|].
  destruct (String.eqb k0 k) eqn:E; simpl; rewrite E; [reflexivity | now rewrite IH].
Qed.

Lemma replace_insertIndex i k a b o :
  get k o = None -> replace k b (insertIndex i k a o) = insertIndex i k b o.
Proof.
  induction o as [|[k0 v0] o IH]; simpl; intros Hk.
  - now rewrite String.eqb_refl.
  - destruct (String.eqb k0 k) eqn:E; [discriminate|].
    destruct (arrayIndex k0) as [j|]; [destruct (j <? i)|]; simpl;
      rewrite ?String.eqb_refl, ?E; try reflexivity.
    now rewrite IH.
Qed.

Lemma replace_app_last k a b o :
  get k o = None -> replace k b (o ++ [(k, a)])%list = (o ++ [(k, b)])%list.
Proof.
  induction o as [|[k0 v0] o IH]; simpl; intros Hk.
  - now rewrite String.eqb_refl.
  - destruct (String.eqb k0 k) eqn:E; [discriminate|]. now rewrite IH.
Qed.

Lemma set_set k a b o : set k b (set k a o) = set k b o.
Proof.
  unfold set at 1. rewrite get_set, String.eqb_refl.
  unfold set. destruct (get k o) as [v|] eqn:Hk.
  - apply replace_replace.
  - destruct (arrayIndex k) as [i|].
    + now apply replace_insertIndex.
    + now apply replace_app_last.
Qed.

Lemma keys_set_present k a o : get k o <> None -> keys (set k a o) = keys o.
Proof.
  intros Hk. unfold set. destruct (get k o); [apply keys_replace | contradiction].
Qed.
End SetTwice.

(** Only the last toggle of a checkbox counts: toggling an id twice leaves
    the world as the second toggle alone would, order of the ids included. *)
Theorem handleProductChange_twice :
  forall (id : string) (first second : bool) (w : World),
    handleProductChange id second (handleProductChange id first w) =
    handleProductChange id second w.
Proof.
  intros id first second w. unfold handleProductChange, setState. simpl.
  now rewrite set_set.
Qed.

(** ** The order of the type names *)

Lemma step_keys_ui w e :
  uiEvent e ->
  keys (selectedProducts (state w)) = uiProducts ->
  keys (selectedProducts (state (step w e))) = uiProducts.
Proof.
  intros Hui Hkeys. rewrite step_selectedProducts.
  destruct e as [| name checked | | | | | | |]; try exact Hkeys.
  rewrite keys_set_present; [exact Hkeys|].
  apply get_In. rewrite Hkeys. exact Hui.
Qed.

Lemma run_keys_ui events : forall w,
  Forall uiEvent events ->
  keys (selectedProducts (state w)) = uiProducts ->
  keys (selectedProducts (state (run events w))) = uiProducts.
Proof.
  induction events as [|e events IH]; intros w Hall Hkeys; [exact Hkeys|].
  inversion Hall as [|? ? He Hall']; subst.
  apply (IH (step w e) Hall'). now apply step_keys_ui.
Qed.

(** As long as only the three rendered checkboxes are toggled, the product
    map keeps the keys tmc1, tmc2, ohrc in this order, so the type names of
    every request are listed in this order whatever the order of the
    toggles. *)
Theorem typeNames_order_fixed :
  forall events : list Event,
    Forall uiEvent events ->
    let s := state (run events initialWorld) in
    keys (selectedProducts s) = ["tmc1"; "tmc2"; "ohrc"] /\
    selectedWorkspaces s =
      filter (selectedFlag (selectedProducts s)) ["tmc1"; "tmc2"; "ohrc"].
Proof.
  intros events Hall s.
  assert (Hkeys : keys (selectedProducts s) = uiProducts).
  { subst s. now apply run_keys_ui. }
  split; [exact Hkeys|].
  rewrite selectedWorkspaces_unfold, Hkeys. reflexivity.
Qed.

Lemma typeNames_order_fixed_witness :
  Forall uiEvent [ProductChange "ohrc" false; ProductChange "tmc1" false;
                  ProductChange "tmc1" true; ProductChange "ohrc" true] /\
  selectedWorkspaces
    (state (run [ProductChange "ohrc" false; ProductChange "tmc1" false;
                 ProductChange "tmc1" true; ProductChange "ohrc" true] initialWorld))
  = ["tmc1"; "tmc2"; "ohrc"].
Proof.
  assert (H : Forall uiEvent [ProductChange "ohrc" false; ProductChange "tmc1" false;
                              ProductChange "tmc1" true; ProductChange "ohrc" true]).
  { repeat (apply Forall_cons; [simpl; auto 10|]). apply Forall_nil. }
  split; [exact H|].
  exact (proj2 (typeNames_order_fixed _ H)).
Defined.

(** ** The encoded filter *)

Lemma unescapeBytes_encodeUnit c rest :
  unescapeBytes (encodeUnit c ++ rest) =
  match unescapeBytes rest with
  | Some bytes => Some (utf8Bytes c ++ bytes)%list
  | None => None
  end.
Proof.
  destruct c as [[] [] [] [] [] [] [] []];
    match goal with
    | |- context [encodeUnit ?c] =>
        let e := eval vm_compute in (encodeUnit c) in
        let b := eval vm_compute in (utf8Bytes c) in
        change (encodeUnit c) with e; change (utf8Bytes c) with b
    end;
    cbn [append unescapeBytes Ascii.eqb Bool.eqb];
    destruct (unescapeBytes rest); reflexivity.
Qed.

Lemma utf8Units_utf8Bytes c bytes :
  utf8Units (utf8Bytes c ++ bytes)%list =
  match utf8Units bytes with
  | Some s => Some (String c s)
  | None => None
  end.
Proof.
  destruct c as [[] [] [] [] [] [] [] []];
    match goal with
    | |- context [utf8Bytes ?c] =>
        let b := eval vm_compute in (utf8Bytes c) in
        change (utf8Bytes c) with b
    end;
    cbn [app utf8Units];
    destruct (utf8Units bytes); reflexivity.
Qed.

Lemma unescapeBytes_encodeURIComponent s :
  unescapeBytes (encodeURIComponent s) = Some (utf8BytesOf s).
Proof.
  induction s as [|c s IH]; [reflexivity|].
  cbn [encodeURIComponent utf8BytesOf].
  now rewrite unescapeBytes_encodeUnit, IH.
Qed.

Lemma utf8Units_utf8BytesOf s : utf8Units (utf8BytesOf s) = Some s.
Proof.
  induction s as [|c s IH]; [reflexivity|].
  cbn [utf8BytesOf]. now rewrite utf8Units_utf8Bytes, IH.
Qed.

(** The encoding loses nothing: undoing the escapes of the encoded text gives
    the text back, so two different filters never share a [cql_filter]
    parameter. *)
Theorem encodeURIComponent_recoverable :
  (forall s, unescape (encodeURIComponent s) = Some s) /\
  (forall s1 s2, encodeURIComponent s1 = encodeURIComponent s2 -> s1 = s2).
Proof.
  assert (Hround : forall s, unescape (encodeURIComponent s) = Some s).
  { intros s. unfold unescape.
    now rewrite unescapeBytes_encodeURIComponent, utf8Units_utf8BytesOf. }
  split; [exact Hround|].
  intros s1 s2 Heq.
  pose proof (Hround s1) as H1. rewrite Heq, Hround in H1. now injection H1.
Qed.





(** ** The controls and the handlers *)

(** Each number input edits the field it displays: a change of a rendered
    input raises an edit of one coordinate field, after which that input
    displays the typed text and every other control displays what it did;
    nothing is done to any collaborator. *)
Theorem render_input_wiring :
  forall (w : World) (i : nat) (name value placeholder : string)
         (handler : Handler) (typed : string) (ticked : bool),
    nth_error (render (state w)) i = Some (NumberInput name value placeholder handler) ->
    exists field,
      changeEvent (NumberInput name value placeholder handler) typed ticked
        = Some (InputChange field typed) /\
      nth_error (render (state (step w (InputChange field typed)))) i
        = Some (NumberInput name typed placeholder handler) /\
      (forall j, j <> i ->
         nth_error (render (state (step w (InputChange field typed)))) j
         = nth_error (render (state w)) j) /\
      effects (step w (InputChange field typed)) = effects w.
Proof.
  intros w i name value placeholder handler typed ticked Hi.
  destruct i as [|[|[|[|[|[|[|[|[|i]]]]]]]]]; simpl in Hi; try discriminate Hi;
    try (destruct i; discriminate Hi);
    injection Hi as <- <- <- <-;
    eexists; (split; [reflexivity|]); (split; [reflexivity|]);
    (split; [|reflexivity]);
    intros j Hj; destruct j as [|[|[|[|[|[|[|[|[|j]]]]]]]]]; try reflexivity; now elim Hj.
Qed.

Lemma render_input_wiring_witness :
  nth_error (render scenarioC) 4 = Some (NumberInput "bottom" "" "e.g. 48.8" RunHandleInputChange) /\
  nth_error (render (state (step (mkWorld scenarioC []) (InputChange Bottom "48.8")))) 4
    = Some (NumberInput "bottom" "48.8" "e.g. 48.8" RunHandleInputChange).
Proof.
  split; [reflexivity|].
  destruct (render_input_wiring (mkWorld scenarioC []) 4 "bottom" "" "e.g. 48.8"
              RunHandleInputChange "48.8" false eq_refl)
    as (field & Hevent & Hshown & _).
  injection Hevent as <-. exact Hshown.
Defined.

(** Each checkbox toggles the product it displays: a change of a rendered
    checkbox raises a toggle of the product of that name, after which that
    checkbox displays the new tick and every other control displays what it
    did. *)
Theorem render_checkbox_wiring :
  forall (w : World) (i : nat) (name : string) (checked : option bool)
         (handler : Handler) (typed : string) (ticked : bool),
    nth_error (render (state w)) i = Some (Checkbox name checked handler) ->
    changeEvent (Checkbox name checked handler) typed ticked
      = Some (ProductChange name ticked) /\
    nth_error (render (state (step w (ProductChange name ticked)))) i
      = Some (Checkbox name (Some ticked) handler) /\
    (forall j, j <> i ->
       nth_error (render (state (step w (ProductChange name ticked)))) j
       = nth_error (render (state w)) j) /\
    effects (step w (ProductChange name ticked)) = effects w.
Proof.
  intros w i name checked handler typed ticked Hi.
  destruct i as [|[|[|[|[|[|[|[|[|i]]]]]]]]]; simpl in Hi; try discriminate Hi;
    try (destruct i; discriminate Hi);
    injection Hi as <- <- <-;
    (split; [reflexivity|]);
    cbn [step handleProductChange setState state];
    unfold render; cbn [selectedProducts top bottom left right];
    rewrite !get_set;
    (split; [reflexivity|]); (split; [|reflexivity]);
    intros j Hj; destruct j as [|[|[|[|[|[|[|[|[|j]]]]]]]]]; try reflexivity; now elim Hj.
Qed.

Lemma render_checkbox_wiring_witness :
  nth_error (render initialState) 1 = Some (Checkbox "tmc2" (Some true) RunHandleProductChange) /\
  nth_error (render (state (step initialWorld (ProductChange "tmc2" false)))) 1
    = Some (Checkbox "tmc2" (Some false) RunHandleProductChange).
Proof.
  split; [reflexivity|].
  exact (proj1 (proj2 (render_checkbox_wiring initialWorld 1 "tmc2" (Some true)
                         RunHandleProductChange "" false eq_refl))).
Defined.

Lemma step_keeps_keys w e id :
  get id (selectedProducts (state w)) <> None ->
  get id (selectedProducts (state (step w e))) <> None.
Proof.
  rewrite step_selectedProducts. destruct e as [| changed checked | | | | | | |]; try tauto.
  rewrite get_set. now destruct (String.eqb id changed).
Qed.

Lemma run_keeps_keys events : forall w id,
  get id (selectedProducts (state w)) <> None ->
  get id (selectedProducts (state (run events w))) <> None.
Proof.
  induction events as [|e events IH]; intros w id H; [exact H|].
  apply IH. now apply step_keeps_keys.
Qed.

(** No handler ever removes a key of the product map, so whatever happens
    the three checkboxes are rendered with a defined tick: none of them is
    ever given an undefined [checked]. *)
Theorem checkboxes_stay_controlled :
  forall events : list Event,
    Forall (fun c => match c with
                     | Checkbox _ checked _ => checked <> None
                     | _ => True
                     end)
           (render (state (run events initialWorld))).
Proof.
  intros events. unfold render.
  repeat (apply Forall_cons; [try exact I|]); try apply Forall_nil;
    apply run_keeps_keys; discriminate.
Qed.

(** ** The drawing-mode flag *)

Lemma step_drawingMode w e :
  drawingMode (state (step w e)) = true ->
  e = ActivateDrawing \/ drawingMode (state w) = true.
Proof.
  destruct e as [field value| | |closeLoop entities| | |r| |]; simpl; intros H;
    try (now left); try (now right); try discriminate H.
  - right. now destruct field.
  - right. destruct (onDrawingUpdated_cases closeLoop entities w) as [Heq|(box & _ & Heq)];
      rewrite Heq in H; [exact H | discriminate H].
  - right. unfold queryGeoServer in H.
    destruct (_ || _); [exact H|]. now destruct (selectedWorkspaces (state w)).
  - right. destruct r as [error|response]; [exact H|].
    simpl in H. now destruct (json response).
Qed.

Lemma run_drawingMode events : forall w,
  drawingMode (state (run events w)) = true ->
  drawingMode (state w) = true \/ In ActivateDrawing events.
Proof.
  induction events as [|e events IH]; intros w H; [now left|].
  destruct (IH (step w e) H) as [Hstep|Hin]; [|right; now right].
  destruct (step_drawingMode w e Hstep) as [->|Hw]; [right; now left | now left].
Qed.

(** The drawing-mode flag is only ever set by the draw button: when it is
    found set, [activateDrawing] has run, which sets it and enters draw
    mode.  Activating the tool ([activate]) enters draw mode too and leaves
    the flag as it was, so draw mode is entered with the flag not set when
    the tool is activated first. *)
Theorem drawingMode_set_by_button :
  (forall events : list Event,
      drawingMode (state (run events initialWorld)) = true ->
      In ActivateDrawing events) /\
  (forall w : World,
      drawingMode (state (activateDrawing w)) = true /\
      effects (activateDrawing w) = (effects w ++ [EnterDrawMode])%list) /\
  (forall w : World,
      state (activate w) = state w /\
      effects (activate w) = (effects w ++ [EnterDrawMode])%list) /\
  (drawingMode (state (run [Activate] initialWorld)) = false /\
   effects (run [Activate] initialWorld) = [EnterDrawMode]).
Proof.
  split; [|repeat split].
  intros events H.
  destruct (run_drawingMode events initialWorld H) as [Hinit|Hin];
    [discriminate Hinit | exact Hin].
Qed.

Lemma drawingMode_set_by_button_witness :
  drawingMode (state (run [Activate; ActivateDrawing; InputChange Top "1"] initialWorld)) = true /\
  In ActivateDrawing [Activate; ActivateDrawing; InputChange Top "1"].
Proof.
  split; [reflexivity|].
  exact (proj1 drawingMode_set_by_button
           [Activate; ActivateDrawing; InputChange Top "1"] eq_refl).
Defined.

(** ** One answer per query, one outcome per settled request *)

Lemma count_app {A : Type} (p : A -> bool) (l1 l2 : list A) :
  count p (l1 ++ l2) = (count p l1 + count p l2)%nat.
Proof. unfold count. now rewrite filter_app, length_app. Qed.

Lemma step_effects w e :
  exists new,
    effects (step w e) = (effects w ++ new)%list /\
    count isQueryAnswer new = (if isQueryEvent e then 1 else 0)%nat /\
    count isSettledOutcome new = (if isSettledEvent e then 1 else 0)%nat.
Proof.
  destruct e as [field value| | |closeLoop entities| | |r| |]; simpl.
  - exists []. now rewrite app_nil_r.
  - exists []. now rewrite app_nil_r.
  - now exists [EnterDrawMode].
  - destruct (onDrawingUpdated_cases closeLoop entities w) as [Heq|(box & _ & Heq)];
      rewrite Heq.
    + exists []. now rewrite app_nil_r.
    + now exists [EndDrawing].
  - exists []. now rewrite app_nil_r.
  - unfold queryGeoServer. destruct (_ || _); [now eexists [_]|].
    destruct (selectedWorkspaces (state w)); now eexists [_].
  - destruct r as [error|response]; simpl; [now eexists [_]|].
    destruct (json response); now eexists [_].
  - now exists [EnterDrawMode].
  - now exists [EndDrawing].
Qed.

Lemma run_counts events : forall w,
  count isQueryAnswer (effects (run events w)) =
    (count isQueryAnswer (effects w) + count isQueryEvent events)%nat /\
  count isSettledOutcome (effects (run events w)) =
    (count isSettledOutcome (effects w) + count isSettledEvent events)%nat.
Proof.
  induction events as [|e events IH]; intros w.
  - unfold count at 2 4. simpl. now rewrite !Nat.add_0_r.
  - change (run (e :: events) w) with (run events (step w e)).
    destruct (IH (step w e)) as [IHq IHs].
    destruct (step_effects w e) as (new & Heff & Hq & Hs).
    rewrite IHq, IHs, Heff, !count_app, Hq, Hs.
    unfold count. simpl.
    destruct (isQueryEvent e), (isSettledEvent e); simpl; split; lia.
Qed.

(** Every press of the query button is answered by exactly one alert or one
    request, and nothing else produces either: after any sequence of events
    the alerts and requests together are as many as the presses. *)
Theorem one_answer_per_query :
  forall events : list Event,
    count isQueryAnswer (effects (run events initialWorld)) =
    count isQueryEvent events.
Proof.
  intros events. now rewrite (proj1 (run_counts events initialWorld)).
Qed.


(** ** Points on one parallel *)


